(** * WS5 Smart Forms: the signup-form controller of [src/app.js]

    A shallow embedding of the script: the form fields and their
    constraint-validation state, the five validators, the error summary,
    the debounced invoker over an explicit timer queue, the draft kept in
    [localStorage], the phone normaliser and the submit handler.

    The script talks to a browser.  What the browser decides from the
    page markup (which is not part of the sources) and what the JavaScript
    engine provides ([JSON], numbers) is gathered in the class [Platform];
    everything else is translated from the script, statement by statement. *)

From Stdlib Require Import String Ascii List Bool Arith ZArith Lia.
From stdpp Require Import gmap strings list fin_maps pretty.
Import ListNotations.

Set Warnings "-register-all".
Local Open Scope string_scope.

(** ** Strings

    A JavaScript string is a sequence of code units; here the code units
    are the 8-bit characters of [string]. *)

Definition code (c : ascii) : nat := nat_of_ascii c.

(** [0-9], [A-Z], [a-z] and [\d] of the regular expressions. *)
Definition in_range (lo hi : nat) (c : ascii) : bool :=
  Nat.leb lo (code c) && Nat.leb (code c) hi.

Definition is_digit (c : ascii) : bool := in_range 48 57 c.
Definition is_upper (c : ascii) : bool := in_range 65 90 c.
Definition is_lower (c : ascii) : bool := in_range 97 122 c.
Definition is_plus (c : ascii) : bool := in_range 43 43 c.

(** Line terminators: [.] matches every code unit but these. *)
Definition is_line_terminator (c : ascii) : bool :=
  in_range 10 10 c || in_range 13 13 c.

(** White space as [String.prototype.trim] removes it: TAB, LF, VT, FF,
    CR, SPACE and NBSP. *)
Definition is_white (c : ascii) : bool :=
  in_range 9 13 c || in_range 32 32 c || in_range 160 160 c.

Fixpoint trimStart (s : string) : string :=
  match s with
  | String c r => if is_white c then trimStart r else s
  | EmptyString => EmptyString
  end.

Fixpoint trimEnd (s : string) : string :=
  match s with
  | String c r =>
      match trimEnd r with
      | EmptyString => if is_white c then EmptyString else String c EmptyString
      | r' => String c r'
      end
  | EmptyString => EmptyString
  end.

(** [s.trim()] *)
Definition trim (s : string) : string := trimEnd (trimStart s).

(** [s.startsWith(p)] *)
Definition startsWith (p s : string) : bool := String.prefix p s.

(** [s.slice(1)] *)
Definition slice1 (s : string) : string :=
  match s with
  | String _ r => r
  | EmptyString => EmptyString
  end.

(** [s.replace(/[^...]/g, '')]: every code unit matched by the negated
    class is replaced by the empty string; [keep] is the class. *)
Fixpoint replace_all_but (keep : ascii -> bool) (s : string) : string :=
  match s with
  | String c r =>
      if keep c then String c (replace_all_but keep r)
      else EmptyString +:+ replace_all_but keep r
  | EmptyString => EmptyString
  end.

(** [l.join(sep)] *)
Definition join (sep : string) (l : list string) : string := String.concat sep l.

(** [String(b)] *)
Definition String_of_bool (b : bool) : string := if b then "true" else "false".

(** [!s] for a string: only the empty string is falsy. *)
Definition falsy_string (s : string) : bool := String.eqb s "".

(** *** The password pattern [/(?=.*[A-Z])(?=.*[a-z])(?=.*\d)/]

    A lookahead [(?=.*[cls])] succeeds at a position when some code unit
    of the class follows after zero or more code units that are not line
    terminators. *)
Fixpoint lookahead (cls : ascii -> bool) (s : string) : bool :=
  match s with
  | String c r => cls c || (negb (is_line_terminator c) && lookahead cls r)
  | EmptyString => false
  end.

(** [re.test(s)]: the pattern is not anchored, so every start position is
    tried, the end of the string included. *)
Fixpoint password_pattern_test (s : string) : bool :=
  (lookahead is_upper s && lookahead is_lower s && lookahead is_digit s)
  || match s with
     | String _ r => password_pattern_test r
     | EmptyString => false
     end.

(** ** JavaScript values, as [JSON.parse] produces them *)

Inductive jsval (num : Type) : Type :=
| JUndefined
| JNull
| JBool (b : bool)
| JNum (n : num)
| JStr (s : string)
| JArr (items : list (jsval num))
| JObj (props : list (string * jsval num)).

Arguments JUndefined {num}.
Arguments JNull {num}.
Arguments JBool {num} b.
Arguments JNum {num} n.
Arguments JStr {num} s.
Arguments JArr {num} items.
Arguments JObj {num} props.

Inductive exn : Type :=
| SyntaxError   (* JSON.parse, response.json() *)
| TypeError     (* property read on null or undefined *)
| NetworkError. (* fetch rejected *)

(** The completion of a piece of code that may throw. *)
Inductive result (A : Type) : Type :=
| Ok (a : A)
| Throw (e : exn).

Arguments Ok {A} a.
Arguments Throw {A} e.

(** ** The form controls *)

Inductive field_id : Type := Name | Email | Password | Phone | Company | Hp.

#[global] Instance field_id_eq_dec : EqDecision field_id.
Proof. solve_decision. Defined.

(** An [<input>] element, as far as the script reads or writes it. *)
Record input : Type := mkInput {
  value : string;
  required : bool;                (* the [required] attribute *)
  custom : string;                (* the custom validity message *)
  aria_invalid : option string;   (* the [aria-invalid] attribute *)
  user_edited : bool              (* value last changed by the user *)
}.

Definition with_value (v : string) (el : input) : input :=
  {| value := v; required := required el; custom := custom el;
     aria_invalid := aria_invalid el; user_edited := false |}.

Definition typed_value (v : string) (el : input) : input :=
  {| value := v; required := required el; custom := custom el;
     aria_invalid := aria_invalid el; user_edited := true |}.

(** [el.setAttribute('required', '')] and [el.removeAttribute('required')] *)
Definition with_required (b : bool) (el : input) : input :=
  {| value := value el; required := b; custom := custom el;
     aria_invalid := aria_invalid el; user_edited := user_edited el |}.

(** [el.setCustomValidity(msg)] *)
Definition setCustomValidity (msg : string) (el : input) : input :=
  {| value := value el; required := required el; custom := msg;
     aria_invalid := aria_invalid el; user_edited := user_edited el |}.

(** [el.setAttribute('aria-invalid', s)] *)
Definition set_aria_invalid (s : string) (el : input) : input :=
  {| value := value el; required := required el; custom := custom el;
     aria_invalid := Some s; user_edited := user_edited el |}.

(** The document: the objects [fields], [errorEls], [companySection] and
    [summary] of the script. *)
Record dom : Type := mkDom {
  f_name : input;
  f_email : input;
  f_password : input;
  f_phone : input;
  companyToggle_checked : bool;
  f_company : input;
  f_hp : input;
  e_name : string;                (* errorEls.name.textContent *)
  e_email : string;
  e_password : string;
  e_phone : string;
  e_company : string;
  companySection_hidden : bool;   (* companySection.hidden *)
  summary_visually_hidden : bool; (* 'visually-hidden' in summary.classList *)
  summary_innerHTML : string
}.

Definition field (f : field_id) (d : dom) : input :=
  match f with
  | Name => f_name d
  | Email => f_email d
  | Password => f_password d
  | Phone => f_phone d
  | Company => f_company d
  | Hp => f_hp d
  end.

Definition set_field (f : field_id) (el : input) (d : dom) : dom :=
  let 'mkDom n e p ph t c h en ee ep eph ec ch sv sh := d in
  match f with
  | Name => mkDom el e p ph t c h en ee ep eph ec ch sv sh
  | Email => mkDom n el p ph t c h en ee ep eph ec ch sv sh
  | Password => mkDom n e el ph t c h en ee ep eph ec ch sv sh
  | Phone => mkDom n e p el t c h en ee ep eph ec ch sv sh
  | Company => mkDom n e p ph t el h en ee ep eph ec ch sv sh
  | Hp => mkDom n e p ph t c el en ee ep eph ec ch sv sh
  end.

Definition set_checked (b : bool) (d : dom) : dom :=
  let 'mkDom n e p ph _ c h en ee ep eph ec ch sv sh := d in
  mkDom n e p ph b c h en ee ep eph ec ch sv sh.

(** The error slot of a validated field; [hp] has none. *)
Definition errorEl (f : field_id) (d : dom) : string :=
  match f with
  | Name => e_name d
  | Email => e_email d
  | Password => e_password d
  | Phone => e_phone d
  | Company => e_company d
  | Hp => ""
  end.

(** [errorEls.f.textContent = msg] *)
Definition set_errorEl (f : field_id) (msg : string) (d : dom) : dom :=
  let 'mkDom n e p ph t c h en ee ep eph ec ch sv sh := d in
  match f with
  | Name => mkDom n e p ph t c h msg ee ep eph ec ch sv sh
  | Email => mkDom n e p ph t c h en msg ep eph ec ch sv sh
  | Password => mkDom n e p ph t c h en ee msg eph ec ch sv sh
  | Phone => mkDom n e p ph t c h en ee ep msg ec ch sv sh
  | Company => mkDom n e p ph t c h en ee ep eph msg ch sv sh
  | Hp => d
  end.

Definition set_hidden (b : bool) (d : dom) : dom :=
  let 'mkDom n e p ph t c h en ee ep eph ec _ sv sh := d in
  mkDom n e p ph t c h en ee ep eph ec b sv sh.

Definition set_summary (hidden : bool) (html : string) (d : dom) : dom :=
  let 'mkDom n e p ph t c h en ee ep eph ec ch _ _ := d in
  mkDom n e p ph t c h en ee ep eph ec ch hidden html.

(** ** The browser and the page markup

    [index.html] and the browser are outside the sources.  The class
    gathers what the script takes from them: the document as the markup
    declares it, the order of the form's inputs in the document, the
    verdicts of the constraint-validation API that depend on the markup
    ([type], [minlength], [pattern], ...), and the engine's numbers and
    [JSON] object. *)
Class Platform : Type := {
  markup : dom;
  dom_order : list field_id;
  (* validity.typeMismatch of the field holding this value *)
  typeMismatch : field_id -> string -> bool;
  (* validity.tooShort; it also depends on who changed the value last *)
  tooShort : field_id -> bool -> string -> bool;
  (* any other constraint of the markup: patternMismatch, tooLong, ... *)
  otherMismatch : field_id -> bool -> string -> bool;
  (* the browser's own message for a field that fails a markup
     constraint: required, edited by the user, value *)
  nativeMessage : field_id -> bool -> bool -> string -> string;
  number : Type;
  number_truthy : number -> bool;
  number_ToString : number -> string;
  JSON_stringify : jsval number -> string;
  (* [None]: JSON.parse throws a SyntaxError *)
  JSON_parse : string -> option (jsval number)
}.

Section Controller.

Context `{Platform}.

Abbreviation js := (jsval number).

(** *** Constraint validation *)

(** [el.validity.valueMissing] *)
Definition valueMissing (el : input) : bool :=
  required el && falsy_string (value el).

(** [el.validity.customError] *)
Definition customError (el : input) : bool := negb (falsy_string (custom el)).

Definition markupInvalid (f : field_id) (el : input) : bool :=
  valueMissing el
  || typeMismatch f (value el)
  || tooShort f (user_edited el) (value el)
  || otherMismatch f (user_edited el) (value el).

(** [el.checkValidity()] *)
Definition checkValidity (f : field_id) (el : input) : bool :=
  negb (markupInvalid f el || customError el).

(** [el.validationMessage]: the custom message when one is set, else the
    browser's message when a markup constraint fails, else empty. *)
Definition validationMessage (f : field_id) (el : input) : string :=
  if customError el then custom el
  else if markupInvalid f el
       then nativeMessage f (required el) (user_edited el) (value el)
       else "".

(** *** 4. Validation functions *)

Definition validateName (d : dom) : bool * dom :=
  let el := setCustomValidity "" (f_name d) in
  let el :=
    if valueMissing el then setCustomValidity "Name is required." el
    else if Nat.ltb (String.length (trim (value el))) 2
         then setCustomValidity "Name must be at least 2 characters." el
         else el in
  let d := set_errorEl Name (validationMessage Name el) (set_field Name el d) in
  let el := set_aria_invalid (String_of_bool (negb (checkValidity Name el))) el in
  (checkValidity Name el, set_field Name el d).

Definition validateEmail (d : dom) : bool * dom :=
  let el := setCustomValidity "" (f_email d) in
  let el :=
    if valueMissing el then setCustomValidity "Email is required." el
    else if typeMismatch Email (value el)
         then setCustomValidity "Enter a valid email address." el
         else el in
  let d := set_errorEl Email (validationMessage Email el) (set_field Email el d) in
  let el := set_aria_invalid (String_of_bool (negb (checkValidity Email el))) el in
  (checkValidity Email el, set_field Email el d).

Definition validatePassword (d : dom) : bool * dom :=
  let el := setCustomValidity "" (f_password d) in
  let el :=
    if valueMissing el then setCustomValidity "Password is required." el
    else if tooShort Password (user_edited el) (value el)
         then setCustomValidity "Password must be at least 8 characters." el
         else if negb (password_pattern_test (value el))
              then setCustomValidity "Add upper case, lower case, and a number." el
              else el in
  let d :=
    set_errorEl Password (validationMessage Password el)
      (set_field Password el d) in
  let el :=
    set_aria_invalid (String_of_bool (negb (checkValidity Password el))) el in
  (checkValidity Password el, set_field Password el d).

Definition validatePhone (d : dom) : bool * dom :=
  let el := setCustomValidity "" (f_phone d) in
  let el :=
    if negb (falsy_string (value el)) && negb (checkValidity Phone el)
    then setCustomValidity "Phone format example: +358 40 123 4567" el
    else el in
  let d := set_errorEl Phone (validationMessage Phone el) (set_field Phone el d) in
  let el := set_aria_invalid (String_of_bool (negb (checkValidity Phone el))) el in
  (checkValidity Phone el, set_field Phone el d).

Definition validateCompany (d : dom) : bool * dom :=
  if companySection_hidden d then (true, d)
  else
    let el := setCustomValidity "" (f_company d) in
    let el :=
      if valueMissing el
      then setCustomValidity
             "Company name is required when registering as a company." el
      else el in
    let d :=
      set_errorEl Company (validationMessage Company el)
        (set_field Company el d) in
    let el :=
      set_aria_invalid (String_of_bool (negb (checkValidity Company el))) el in
    (checkValidity Company el, set_field Company el d).

(** The validator bound to a field's input listener; [hp] has none. *)
Definition validator (f : field_id) : dom -> bool * dom :=
  match f with
  | Name => validateName
  | Email => validateEmail
  | Password => validatePassword
  | Phone => validatePhone
  | Company => validateCompany
  | Hp => fun d => (true, d)
  end.

(** *** 6. Error summary *)

(** [if (!ok) problems.push(label + el.validationMessage)] *)
Definition push_problem (ok : bool) (label : string) (f : field_id) (d : dom)
    (problems : list string) : list string :=
  if negb ok then problems ++ [label +:+ validationMessage f (field f d)]
  else problems.

Definition buildSummary (d : dom) : dom :=
  let problems := [] in
  let '(ok, d) := validateName d in
  let problems := push_problem ok "Name: " Name d problems in
  let '(ok, d) := validateEmail d in
  let problems := push_problem ok "Email: " Email d problems in
  let '(ok, d) := validatePassword d in
  let problems := push_problem ok "Password: " Password d problems in
  let '(ok, d) := validatePhone d in
  let problems := push_problem ok "Phone: " Phone d problems in
  let '(problems, d) :=
    if negb (companySection_hidden d)
    then let '(ok, d) := validateCompany d in
         (push_problem ok "Company: " Company d problems, d)
    else (problems, d) in
  if negb (Nat.eqb (length problems) 0)
  then set_summary false
         ("Please fix the following:<br>" +:+ join "<br>" problems) d
  else set_summary true "" d.

(** *** JavaScript conversions and property reads *)

(** The object has an own property of this name. *)
Definition has_own (k : string) (props : list (string * js)) : bool :=
  existsb (fun kv => String.eqb (fst kv) k) props.

(** [ToString(v)], which [el.value = v] and ['...' + v] apply to [v].
    An object built by [JSON.parse] is converted by the [toString] it
    inherits, unless it has an own member of that name: no JSON value is
    callable, so the conversion finds no method and throws a
    [TypeError].  An array joins the conversions of its elements, [null]
    and [undefined] counting as empty, and throws when one of them
    does. *)
Fixpoint ToString (v : js) : result string :=
  match v with
  | JUndefined => Ok "undefined"
  | JNull => Ok "null"
  | JBool b => Ok (String_of_bool b)
  | JNum n => Ok (number_ToString n)
  | JStr s => Ok s
  | JArr items =>
      let fix each (l : list js) : result (list string) :=
        match l with
        | x :: r =>
            match match x with
                  | JUndefined | JNull => Ok ""
                  | _ => ToString x
                  end with
            | Ok s =>
                match each r with
                | Ok ss => Ok (s :: ss)
                | Throw e => Throw e
                end
            | Throw e => Throw e
            end
        | [] => Ok []
        end in
      match each items with
      | Ok ss => Ok (join "," ss)
      | Throw e => Throw e
      end
  | JObj props =>
      if has_own "toString" props then Throw TypeError
      else Ok "[object Object]"
  end.

(** [Boolean(v)] *)
Definition ToBoolean (v : js) : bool :=
  match v with
  | JUndefined | JNull => false
  | JBool b => b
  | JNum n => number_truthy n
  | JStr s => negb (falsy_string s)
  | JArr _ | JObj _ => true
  end.

(** [a || b] *)
Definition js_or (a b : js) : js := if ToBoolean a then a else b.

Fixpoint lookup_prop (k : string) (props : list (string * js)) : js :=
  match props with
  | (k', v) :: r => if String.eqb k' k then v else lookup_prop k r
  | [] => JUndefined
  end.

(** [v.k], for the property names the script reads: [name], [email],
    [phone], [password], [companyToggle], [company] and [id].  No
    prototype defines them, so a primitive or an array gives
    [undefined]; reading from [null] or [undefined] throws. *)
Definition get_prop (v : js) (k : string) : result js :=
  match v with
  | JUndefined | JNull => Throw TypeError
  | JObj props => Ok (lookup_prop k props)
  | _ => Ok JUndefined
  end.

(** *** The page: the document and what surrounds it *)

Inductive logged : Type :=
| LNothing
| LValue (v : js)
| LString (s : string)
| LExn (e : exn).

Inductive log_entry : Type :=
| ConsoleLog (label : string) (arg : logged)
| ConsoleError (label : string) (arg : logged).

(** What a timer runs when it fires. *)
Inductive task : Type :=
| RunValidator (f : field_id)
| RunSaveDraft.

Record timer : Type := mkTimer { tid : nat; due : nat; job : task }.

Record request : Type := mkRequest {
  url : string;
  method : string;
  headers : list (string * string);
  body : string
}.

Record page : Type := mkPage {
  doc : dom;
  localStorage : gmap string string;
  console : list log_entry;     (* oldest first *)
  alerts : list string;         (* the alert() dialogs shown, oldest first *)
  focused : option field_id;    (* the element focus() was last called on *)
  fetched : list request;       (* the fetch() calls issued, oldest first *)
  awaiting : list js;           (* payloads whose response is awaited *)
  clock : nat;                  (* milliseconds *)
  timers : list timer;          (* pending timeouts, in creation order *)
  next_timer : nat;
  save_on_input : option nat;   (* [timeout] of the 'input' autosave closure *)
  save_on_change : option nat   (* [timeout] of the 'change' autosave closure *)
}.

Definition with_doc (d : dom) (st : page) : page :=
  let 'mkPage _ ls co al fo fe aw cl ti nt si sc := st in
  mkPage d ls co al fo fe aw cl ti nt si sc.

Definition on_doc (f : dom -> dom) (st : page) : page := with_doc (f (doc st)) st.

Definition with_localStorage (ls : gmap string string) (st : page) : page :=
  let 'mkPage d _ co al fo fe aw cl ti nt si sc := st in
  mkPage d ls co al fo fe aw cl ti nt si sc.

Definition with_console (co : list log_entry) (st : page) : page :=
  let 'mkPage d ls _ al fo fe aw cl ti nt si sc := st in
  mkPage d ls co al fo fe aw cl ti nt si sc.

Definition with_alerts (al : list string) (st : page) : page :=
  let 'mkPage d ls co _ fo fe aw cl ti nt si sc := st in
  mkPage d ls co al fo fe aw cl ti nt si sc.

Definition with_focused (fo : option field_id) (st : page) : page :=
  let 'mkPage d ls co al _ fe aw cl ti nt si sc := st in
  mkPage d ls co al fo fe aw cl ti nt si sc.

Definition with_fetched (fe : list request) (st : page) : page :=
  let 'mkPage d ls co al fo _ aw cl ti nt si sc := st in
  mkPage d ls co al fo fe aw cl ti nt si sc.

Definition with_awaiting (aw : list js) (st : page) : page :=
  let 'mkPage d ls co al fo fe _ cl ti nt si sc := st in
  mkPage d ls co al fo fe aw cl ti nt si sc.

Definition with_clock (cl : nat) (st : page) : page :=
  let 'mkPage d ls co al fo fe aw _ ti nt si sc := st in
  mkPage d ls co al fo fe aw cl ti nt si sc.

Definition with_timers (ti : list timer) (st : page) : page :=
  let 'mkPage d ls co al fo fe aw cl _ nt si sc := st in
  mkPage d ls co al fo fe aw cl ti nt si sc.

Definition with_next_timer (nt : nat) (st : page) : page :=
  let 'mkPage d ls co al fo fe aw cl ti _ si sc := st in
  mkPage d ls co al fo fe aw cl ti nt si sc.

Definition with_save_on_input (si : option nat) (st : page) : page :=
  let 'mkPage d ls co al fo fe aw cl ti nt _ sc := st in
  mkPage d ls co al fo fe aw cl ti nt si sc.

Definition with_save_on_change (sc : option nat) (st : page) : page :=
  let 'mkPage d ls co al fo fe aw cl ti nt si _ := st in
  mkPage d ls co al fo fe aw cl ti nt si sc.

(** [console.log], [console.error], [alert], [el.focus()] *)
Definition console_log (label : string) (arg : logged) (st : page) : page :=
  with_console (console st ++ [ConsoleLog label arg]) st.

Definition console_error (label : string) (arg : logged) (st : page) : page :=
  with_console (console st ++ [ConsoleError label arg]) st.

Definition alert (msg : string) (st : page) : page :=
  with_alerts (alerts st ++ [msg]) st.

Definition focus (f : field_id) (st : page) : page := with_focused (Some f) st.

(** [localStorage.getItem], [setItem], [removeItem] *)
Definition getItem (k : string) (st : page) : option string :=
  localStorage st !! k.

Definition setItem (k v : string) (st : page) : page :=
  with_localStorage (<[k := v]> (localStorage st)) st.

Definition removeItem (k : string) (st : page) : page :=
  with_localStorage (delete k (localStorage st)) st.

(** *** Code that may throw: state and exceptions *)

Definition M (A : Type) : Type := page -> result A * page.

#[local] Instance M_ret : MRet M := fun A (a : A) st => (Ok a, st).

#[local] Instance M_bind : MBind M := fun A B (k : A -> M B) (m : M A) st =>
  match m st with
  | (Ok a, st') => k a st'
  | (Throw e, st') => (Throw e, st')
  end.

Definition lift {A} (r : result A) : M A := fun st => (r, st).

Definition gets {A} (f : page -> A) : M A := fun st => (Ok (f st), st).

Definition modify (f : page -> page) : M unit := fun st => (Ok tt, f st).

(** [try { body } catch (e) { handler e }] *)
Definition try_catch {A} (body : M A) (handler : exn -> M A) : M A :=
  fun st =>
    match body st with
    | (Ok a, st') => (Ok a, st')
    | (Throw e, st') => handler e st'
    end.

(** *** Timers *)

(** [setTimeout(fn, wait)]: the identifier of the new timer and the page. *)
Definition setTimeout (fn : task) (wait : nat) (st : page) : nat * page :=
  let id := next_timer st in
  let t := {| tid := id; due := clock st + wait; job := fn |} in
  (id, with_next_timer (S id) (with_timers (timers st ++ [t]) st)).

Definition other_timer (id : nat) (t : timer) : bool := negb (Nat.eqb (tid t) id).

(** [clearTimeout(timeout)]; [None] is [undefined], which clears nothing. *)
Definition clearTimeout (timeout : option nat) (st : page) : page :=
  match timeout with
  | Some id => with_timers (List.filter (other_timer id) (timers st)) st
  | None => st
  end.

(** *** 3. Debounce

    [debounce(fn, wait)] returns a closure that owns the variable
    [timeout], [undefined] at first.  One call of the closure is
    [debounced fn wait timeout]: from the variable's content to its new
    content. *)
Definition debounced (fn : task) (wait : nat) (timeout : option nat)
    (st : page) : option nat * page :=
  let st := clearTimeout timeout st in
  let '(id, st) := setTimeout fn wait st in
  (Some id, st).

(** *** 2. The company checkbox *)

Definition companyToggle_change (d : dom) : dom :=
  let d := set_hidden (negb (companyToggle_checked d)) d in
  if negb (companySection_hidden d)
  then set_field Company (with_required true (f_company d)) d
  else
    let d := set_field Company (with_required false (f_company d)) d in
    set_errorEl Company "" d.

(** *** 5. Live validation

    The listener of a field's 'input' event builds a new debounced
    closure on every event, calls it once, and rebuilds the summary. *)
Definition field_input (f : field_id) (st : page) : page :=
  let '(_, st) := debounced (RunValidator f) 150 None st in
  on_doc buildSummary st.

(** *** 7. Autosave *)

Definition STORAGE_KEY : string := "ws5-signup".

(** The object literal [data] of [saveDraft]. *)
Definition draft_data (d : dom) : js :=
  JObj [("name", JStr (value (f_name d)));
        ("email", JStr (value (f_email d)));
        ("phone", JStr (value (f_phone d)));
        ("password", JStr (value (f_password d)));
        ("companyToggle", JBool (companyToggle_checked d));
        ("company", JStr (value (f_company d)))].

Definition saveDraft (st : page) : page :=
  let data := draft_data (doc st) in
  let st := setItem STORAGE_KEY (JSON_stringify data) st in
  console_log "Saved Draft:" (LValue data) st.

(** [fields.f.value = v] from the script: the setter converts [v] to a
    string, which may throw. *)
Definition assign_value (f : field_id) (v : js) : M unit :=
  s ← lift (ToString v);
  modify (on_doc (fun d => set_field f (with_value s (field f d)) d)).

Definition restoreDraft : M unit :=
  try_catch
    (raw ← gets (getItem STORAGE_KEY);
     match raw with
     | None => mret tt
     | Some raw =>
         if falsy_string raw then mret tt
         else
           data ← lift (match JSON_parse raw with
                        | Some v => Ok v
                        | None => Throw SyntaxError
                        end);
           v ← lift (get_prop data "name");
           assign_value Name (js_or v (JStr ""));;
           v ← lift (get_prop data "email");
           assign_value Email (js_or v (JStr ""));;
           v ← lift (get_prop data "phone");
           assign_value Phone (js_or v (JStr ""));;
           v ← lift (get_prop data "password");
           assign_value Password (js_or v (JStr ""));;
           v ← lift (get_prop data "companyToggle");
           modify (on_doc (set_checked (ToBoolean v)));;
           modify (on_doc (fun d => set_hidden (negb (companyToggle_checked d)) d));;
           v ← lift (get_prop data "company");
           assign_value Company (js_or v (JStr ""));;
           modify (console_log "Restored Draft:" (LValue data))
     end)
    (fun e => modify (console_error "Restore Error:" (LExn e))).

(** The two listeners that [forEach] binds to the form: one debounced
    closure for 'input', another for 'change'. *)
Definition form_input (st : page) : page :=
  let '(t, st) := debounced RunSaveDraft 300 (save_on_input st) st in
  with_save_on_input t st.

Definition form_change (st : page) : page :=
  let '(t, st) := debounced RunSaveDraft 300 (save_on_change st) st in
  with_save_on_change t st.

(** *** 8. Clear button *)

(** [form.reset()]: every control back to what the markup gives it. *)
Definition form_reset (d : dom) : dom :=
  let back f d := set_field f (with_value (value (field f markup)) (field f d)) d in
  let d := back Name d in
  let d := back Email d in
  let d := back Password d in
  let d := back Phone d in
  let d := set_checked (companyToggle_checked markup) d in
  let d := back Company d in
  back Hp d.

Definition clearBtn_click (st : page) : page :=
  let st := on_doc form_reset st in
  let st := removeItem STORAGE_KEY st in
  let st :=
    on_doc (fun d =>
      fold_left (fun d f => set_errorEl f "" d)
        [Name; Email; Password; Phone; Company] d) st in
  let st := on_doc (set_hidden true) st in
  let st := on_doc buildSummary st in
  console_log "Form Cleared" LNothing st.

(** *** 9. Form submission *)

(** [validateName() && validateEmail() && validatePassword() &&
    validatePhone() && validateCompany()] *)
Definition validity_check (d : dom) : bool * dom :=
  let '(ok, d) := validateName d in
  if negb ok then (false, d) else
  let '(ok, d) := validateEmail d in
  if negb ok then (false, d) else
  let '(ok, d) := validatePassword d in
  if negb ok then (false, d) else
  let '(ok, d) := validatePhone d in
  if negb ok then (false, d) else
  validateCompany d.

Definition marked_invalid (d : dom) (f : field_id) : bool :=
  match aria_invalid (field f d) with
  | Some s => String.eqb s "true"
  | None => false
  end.

(** [form.querySelector('[aria-invalid="true"]')] *)
Definition querySelector_invalid (d : dom) : option field_id :=
  List.find (marked_invalid d) dom_order.

Definition ENDPOINT : string := "https://jsonplaceholder.typicode.com/posts".

(** The listener up to its first [await]: [time] is what
    [new Date().toISOString()] gives at that moment. *)
Definition form_submit (time : string) (st : page) : page :=
  let '(isValid, d) := validity_check (doc st) in
  let d := buildSummary d in
  let st := with_doc d st in
  let firstInvalid := querySelector_invalid d in
  match negb isValid, firstInvalid with
  | true, Some f => focus f st
  | _, _ =>
      if negb (falsy_string (value (f_hp d)))
      then alert "Submission blocked due to bot detection." st
      else
        let payload : js :=
          JObj [("name", JStr (value (f_name d)));
                ("email", JStr (value (f_email d)));
                ("phone", JStr (value (f_phone d)));
                ("company", JStr (if companyToggle_checked d
                                  then value (f_company d) else ""));
                ("time", JStr time)] in
        let req :=
          {| url := ENDPOINT; method := "POST";
             headers := [("Content-Type", "application/json")];
             body := JSON_stringify payload |} in
        with_awaiting (awaiting st ++ [payload])
          (with_fetched (fetched st ++ [req]) st)
  end.

(** What comes back from [fetch]. *)
Record response : Type := mkResponse { status : nat; body_text : string }.

Inductive fetch_outcome : Type :=
| Rejected (e : exn)        (* the promise of fetch rejects *)
| Resolved (r : response).  (* a response arrived, whatever its status *)

(** [await response.json()] *)
Definition response_json (r : response) : result js :=
  match JSON_parse (body_text r) with
  | Some v => Ok v
  | None => Throw SyntaxError
  end.

(** The rest of the listener, run when the request settles. *)
Definition submit_settled (payload : js) (o : fetch_outcome) : M unit :=
  try_catch
    (response ← lift (match o with
                      | Resolved r => Ok r
                      | Rejected e => Throw e
                      end);
     data ← lift (response_json response);
     id ← lift (get_prop data "id");
     shown ← lift (ToString id);
     modify (alert ("Submitted successfully. Demo ID: " +:+ shown));;
     modify (console_log "Submitted Data:" (LValue payload)))
    (fun error =>
       modify (alert "Network error occurred. Please try again.");;
       modify (console_error "Submission Error:" (LExn error))).

(** *** 10. Phone normalisation *)

Definition keeps (c : ascii) : bool := is_digit c || is_plus c.

Definition phone_blur (st : page) : page :=
  let el := f_phone (doc st) in
  let digits := replace_all_but keeps (value el) in
  let el :=
    if startsWith "0" digits then with_value ("+358" +:+ slice1 digits) el
    else if startsWith "+" digits then with_value digits el
    else with_value ("+358" +:+ digits) el in
  let st := on_doc (set_field Phone el) st in
  console_log "Normalised Phone:" (LString (value el)) st.

(** *** The event loop *)

Definition run_task (fn : task) (st : page) : page :=
  match fn with
  | RunValidator f => on_doc (fun d => snd (validator f d)) st
  | RunSaveDraft => saveDraft st
  end.

(** The pending timer that fires next: the earliest due, the oldest
    among those due together. *)
Fixpoint next_due (l : list timer) : option timer :=
  match l with
  | t :: r =>
      match next_due r with
      | Some u => if Nat.ltb (due u) (due t) then Some u else Some t
      | None => Some t
      end
  | [] => None
  end.

(** Fire, in order, the timers due up to [until]; the tasks run are
    returned.  No task of this script sets a timer, so as much fuel as
    there are pending timers is enough. *)
Fixpoint run_timers (fuel : nat) (until : nat) (st : page) : list task * page :=
  match fuel with
  | S fuel =>
      match next_due (timers st) with
      | Some t =>
          if Nat.leb (due t) until then
            let st := with_timers (List.filter (other_timer (tid t)) (timers st)) st in
            let st := with_clock (Nat.max (clock st) (due t)) st in
            let st := run_task (job t) st in
            let '(ran, st) := run_timers fuel until st in
            (job t :: ran, st)
          else ([], st)
      | None => ([], st)
      end
  | O => ([], st)
  end.

(** [dt] milliseconds pass. *)
Definition elapse (dt : nat) (st : page) : list task * page :=
  let until := clock st + dt in
  let '(ran, st) := run_timers (length (timers st)) until st in
  (ran, with_clock until st).

Inductive event : Type :=
| UserInput (f : field_id) (v : string)  (* the user edits a text field *)
| UserChange (f : field_id)              (* a text field commits its edit *)
| UserToggle                             (* the user clicks the checkbox *)
| PhoneBlur
| ClearClick
| SubmitForm (time : string)
| Settled (i : nat) (o : fetch_outcome)  (* an awaited request settles *)
| Elapsed (dt : nat).

(** One event, with the listeners the script registered, the target's
    first and then the form's, to which 'input' and 'change' bubble. *)
Definition step (e : event) (st : page) : page :=
  match e with
  | UserInput f v =>
      let st := on_doc (fun d => set_field f (typed_value v (field f d)) d) st in
      let st := match f with Hp => st | _ => field_input f st end in
      form_input st
  | UserChange f => form_change st
  | UserToggle =>
      let st := on_doc (fun d => set_checked (negb (companyToggle_checked d)) d) st in
      let st := form_input st in
      let st := on_doc companyToggle_change st in
      form_change st
  | PhoneBlur => phone_blur st
  | ClearClick => clearBtn_click st
  | SubmitForm time => form_submit time st
  | Settled i o =>
      match awaiting st !! i with
      | Some payload =>
          snd (submit_settled payload o
                 (with_awaiting (List.firstn i (awaiting st)
                                 ++ List.skipn (S i) (awaiting st)) st))
      | None => st
      end
  | Elapsed dt => snd (elapse dt st)
  end.

Definition run (es : list event) (st : page) : page :=
  fold_left (fun st e => step e st) es st.

(** The page when the script has run: the document of the markup, the
    store as the last visit left it, and the draft restored. *)
Definition fresh_page (store : gmap string string) : page :=
  {| doc := markup; localStorage := store; console := []; alerts := [];
     focused := None; fetched := []; awaiting := []; clock := 0;
     timers := []; next_timer := 1; save_on_input := None;
     save_on_change := None |}.

Definition page_load (store : gmap string string) : page :=
  snd (restoreDraft (fresh_page store)).

Inductive reachable : page -> Prop :=
| reachable_load store : reachable (page_load store)
| reachable_step e st : reachable st -> reachable (step e st).

End Controller.

(** ** Vocabulary of the properties *)

Section Vocabulary.

Context `{Platform}.

(** The custom message that the rules of a field's validator end with;
    it is read off the value, the [required] attribute and the edit
    flag, never off a previous message or marker. *)
Definition chosen (f : field_id) (el : input) : string :=
  match f with
  | Name =>
      if valueMissing el then "Name is required."
      else if Nat.ltb (String.length (trim (value el))) 2
           then "Name must be at least 2 characters."
           else ""
  | Email =>
      if valueMissing el then "Email is required."
      else if typeMismatch Email (value el)
           then "Enter a valid email address."
           else ""
  | Password =>
      if valueMissing el then "Password is required."
      else if tooShort Password (user_edited el) (value el)
           then "Password must be at least 8 characters."
           else if negb (password_pattern_test (value el))
                then "Add upper case, lower case, and a number."
                else ""
  | Phone =>
      if negb (falsy_string (value el)) && markupInvalid Phone el
      then "Phone format example: +358 40 123 4567"
      else ""
  | Company =>
      if valueMissing el
      then "Company name is required when registering as a company."
      else ""
  | Hp => custom el
  end.

(** An element once its validator has run. *)
Definition settle (f : field_id) (el : input) : input :=
  let el := setCustomValidity (chosen f el) el in
  set_aria_invalid (String_of_bool (negb (checkValidity f el))) el.

(** The document once the validator of [f] has written its verdict. *)
Definition verdict (f : field_id) (d : dom) : dom :=
  set_errorEl f (validationMessage f (settle f (field f d)))
    (set_field f (settle f (field f d)) d).

(** A field's error state reflects its current value: running its
    validator now would change nothing, the slot shows the field's
    validation message and the marker says whether the field is valid. *)
Definition error_state_current (f : field_id) (d : dom) : Prop :=
  snd (validator f d) = d
  /\ errorEl f d = validationMessage f (field f d)
  /\ aria_invalid (field f d)
     = Some (String_of_bool (negb (checkValidity f (field f d)))).

(** The five validated fields, in the order of the script. *)
Definition validated : list field_id := [Name; Email; Password; Phone; Company].

(** The validator of [f] does something: always, but for the company
    field only while its section is shown. *)
Definition applies (f : field_id) (d : dom) : bool :=
  match f with
  | Company => negb (companySection_hidden d)
  | Hp => false
  | _ => true
  end.

(** The label a field has in the summary. *)
Definition label (f : field_id) : string :=
  match f with
  | Name => "Name: "
  | Email => "Email: "
  | Password => "Password: "
  | Phone => "Phone: "
  | Company => "Company: "
  | Hp => ""
  end.

(** The lines of the summary, read off a document whose validators
    have run. *)
Definition problems_of (d : dom) : list string :=
  flat_map
    (fun f =>
       if applies f d && negb (checkValidity f (field f d))
       then [label f +:+ validationMessage f (field f d)]
       else [])
    validated.

(** The summary region showing [problems]. *)
Definition render (problems : list string) (d : dom) : dom :=
  if negb (Nat.eqb (length problems) 0)
  then set_summary false
         ("Please fix the following:<br>" +:+ join "<br>" problems) d
  else set_summary true "" d.

(** The document once every applicable validator has written its
    verdict. *)
Definition verdicts (d : dom) : dom :=
  let d := verdict Phone (verdict Password (verdict Email (verdict Name d))) in
  if companySection_hidden d then d else verdict Company d.

(** [JSON.parse] gives back what [JSON.stringify] wrote, and the text
    written is not empty. *)
Definition json_round_trips (v : jsval number) : Prop :=
  JSON_stringify v <> "" /\ JSON_parse (JSON_stringify v) = Some v.

(** A value that cannot be converted to a string: an object with a
    member named [toString], or an array that holds such a value. *)
Fixpoint unprintable (v : jsval number) : bool :=
  match v with
  | JObj props => has_own "toString" props
  | JArr items => existsb unprintable items
  | _ => false
  end.

(** What the [try] block of the submit listener ends with once the
    request has settled: the text of the [id] it shows, or the exception
    thrown on the way: by [fetch], by [response.json()], by the read of
    [data.id], or by the conversion of the [id] to a string. *)
Definition submission_shows (o : fetch_outcome) : result string :=
  match o with
  | Rejected e => Throw e
  | Resolved r =>
      match response_json r with
      | Ok data =>
          match get_prop data "id" with
          | Ok id => ToString id
          | Throw e => Throw e
          end
      | Throw e => Throw e
      end
  end.

(** A failed request, in the words of the specification: the network
    failed, or the response is a failure: an error status, or a body
    that is not JSON. *)
Definition request_failed (o : fetch_outcome) : Prop :=
  match o with
  | Rejected _ => True
  | Resolved r =>
      ~ (200 <= status r <= 299)%nat \/ JSON_parse (body_text r) = None
  end.

(** *** The phone normaliser in words *)

(** The characters of [s] that satisfy [p], in order. *)
Definition keep_only (p : ascii -> bool) (s : string) : string :=
  string_of_list_ascii (List.filter p (list_ascii_of_string s)).

(** The specification's stripping: every character goes except the
    digits and a leading [+], that is a [+] with nothing kept before
    it. *)
Fixpoint strip_but_leading_plus (s : string) : string :=
  match s with
  | String c r =>
      if is_plus c || is_digit c then String c (keep_only is_digit r)
      else strip_but_leading_plus r
  | EmptyString => EmptyString
  end.

(** The three cases, on a stripped value. *)
Definition to_finnish (digits : string) : string :=
  if startsWith "0" digits then "+358" +:+ slice1 digits
  else if startsWith "+" digits then digits
  else "+358" +:+ digits.

(** The normaliser as the specification words it. *)
Definition normalise_spec (v : string) : string :=
  to_finnish (strip_but_leading_plus v).

(** The normaliser with the stripping that keeps every [+]. *)
Definition normalise_amended (v : string) : string :=
  to_finnish (keep_only (fun c => is_digit c || is_plus c) v).

(** No [+] comes after the first character that is kept. *)
Fixpoint plus_only_leads (s : string) : bool :=
  match s with
  | String c r =>
      if is_plus c || is_digit c
      then forallb (fun x => negb (is_plus x)) (list_ascii_of_string r)
      else plus_only_leads r
  | EmptyString => true
  end.

(** *** The timer queue *)

(** The queue is in order: timers have distinct identifiers, all
    already handed out, and every pending [saveDraft] timer is the one
    that one of the two autosave closures holds in its [timeout]
    variable; so each closure has at most one invocation pending. *)
Definition sched_ok (st : page) : Prop :=
  NoDup (map tid (timers st))
  /\ (forall t, In t (timers st) -> tid t < next_timer st)
  /\ (forall t, In t (timers st) -> job t = RunSaveDraft ->
        Some (tid t) = save_on_input st \/ Some (tid t) = save_on_change st).

(** *** More vocabulary *)

(** Every character of [s] is a digit or a [+]. *)
Definition all_kept (s : string) : bool :=
  forallb keeps (list_ascii_of_string s).

(** Some character of [s] is in the class. *)
Definition some_char (cls : ascii -> bool) (s : string) : bool :=
  existsb cls (list_ascii_of_string s).

(** No line terminator in [s]. *)
Definition single_line (s : string) : bool :=
  forallb (fun c => negb (is_line_terminator c)) (list_ascii_of_string s).

(** The stored draft is the JSON text of what the form holds now. *)
Definition draft_in_sync (st : page) : Prop :=
  getItem STORAGE_KEY st = Some (JSON_stringify (draft_data (doc st))).

(** The events on which the form's autosave listeners run: an edit of
    a text field, its commit, a click on the checkbox. *)
Definition autosaved (e : event) : bool :=
  match e with
  | UserInput _ _ | UserChange _ | UserToggle => true
  | _ => false
  end.

Definition RETRY_NOTICE : string := "Network error occurred. Please try again.".

End Vocabulary.

(** ** A concrete platform

    A page and an engine to run the controller on: a markup in the
    shape the script expects, and a [JSON] codec for objects, arrays,
    strings, integers and the three literals.  The theorems below hold
    for every platform; this one instantiates them. *)
Module Demo.

Import ZArith.

Definition dquote : ascii := ascii_of_nat 34.
Definition backslash : ascii := ascii_of_nat 92.

Definition is_code (c : ascii) (n : nat) : bool := Nat.eqb (code c) n.

(** *** JSON.stringify *)

Definition hex_digit (n : nat) : ascii :=
  if Nat.ltb n 10 then ascii_of_nat (48 + n) else ascii_of_nat (87 + n).

(** QuoteJSONString: the quote, the backslash and the control characters
    are escaped, the rest is copied. *)
Definition escape (c : ascii) : string :=
  if is_code c 34 then String backslash (String dquote "")
  else if is_code c 92 then String backslash (String backslash "")
  else if is_code c 8 then String backslash "b"
  else if is_code c 12 then String backslash "f"
  else if is_code c 10 then String backslash "n"
  else if is_code c 13 then String backslash "r"
  else if is_code c 9 then String backslash "t"
  else if Nat.ltb (code c) 32
       then String backslash
              (String "u" (String "0" (String "0"
                 (String (hex_digit (code c / 16))
                    (String (hex_digit (code c mod 16)) "")))))
       else String c "".

Fixpoint escape_all (s : string) : string :=
  match s with
  | String c r => escape c +:+ escape_all r
  | EmptyString => EmptyString
  end.

Definition quote (s : string) : string :=
  String dquote (escape_all s +:+ String dquote "").

Definition defined (v : jsval Z) : bool :=
  match v with
  | JUndefined => false
  | _ => true
  end.

(** A member whose value is [undefined] is left out of an object; in an
    array, and alone, [undefined] is written [null]. *)
Fixpoint stringify (v : jsval Z) : string :=
  match v with
  | JUndefined | JNull => "null"
  | JBool b => String_of_bool b
  | JNum n => pretty n
  | JStr s => quote s
  | JArr items => "[" +:+ join "," (map stringify items) +:+ "]"
  | JObj props =>
      let fix members (l : list (string * jsval Z)) : list string :=
        match l with
        | (k, x) :: r =>
            if defined x then (quote k +:+ ":" +:+ stringify x) :: members r
            else members r
        | [] => []
        end in
      "{" +:+ join "," (members props) +:+ "}"
  end.

(** *** JSON.parse *)

Definition is_ws (c : ascii) : bool := is_code c 32 || is_code c 9 || is_code c 10 || is_code c 13.

Fixpoint skip_ws (s : string) : string :=
  match s with
  | String c r => if is_ws c then skip_ws r else s
  | EmptyString => EmptyString
  end.

Definition hex_value (c : ascii) : option nat :=
  if in_range 48 57 c then Some (code c - 48)
  else if in_range 97 102 c then Some (code c - 87)
  else if in_range 65 70 c then Some (code c - 55)
  else None.

Definition cons_char (c : ascii) (r : option (string * string)) :
    option (string * string) :=
  match r with
  | Some (s, rest) => Some (String c s, rest)
  | None => None
  end.

(** The characters of a string literal after its opening quote: the
    string and what follows the closing quote.  A [\u] escape above
    [ÿ] has no 8-bit code unit and is refused. *)
Fixpoint parse_chars (s : string) : option (string * string) :=
  match s with
  | String c r =>
      if is_code c 34 then Some (EmptyString, r)
      else if is_code c 92 then
        match r with
        | String e r' =>
            if is_code e 34 then cons_char dquote (parse_chars r')
            else if is_code e 92 then cons_char backslash (parse_chars r')
            else if is_code e 47 then cons_char "/" (parse_chars r')
            else if is_code e 98 then cons_char (ascii_of_nat 8) (parse_chars r')
            else if is_code e 102 then cons_char (ascii_of_nat 12) (parse_chars r')
            else if is_code e 110 then cons_char (ascii_of_nat 10) (parse_chars r')
            else if is_code e 114 then cons_char (ascii_of_nat 13) (parse_chars r')
            else if is_code e 116 then cons_char (ascii_of_nat 9) (parse_chars r')
            else if is_code e 117 then
              match r' with
              | String h1 (String h2 (String h3 (String h4 r''))) =>
                  match hex_value h1, hex_value h2, hex_value h3, hex_value h4 with
                  | Some 0, Some 0, Some a, Some b =>
                      cons_char (ascii_of_nat (16 * a + b)) (parse_chars r'')
                  | _, _, _, _ => None
                  end
              | _ => None
              end
            else None
        | EmptyString => None
        end
      else if Nat.ltb (code c) 32 then None
      else cons_char c (parse_chars r)
  | EmptyString => None
  end.

(** A run of digits, as a number, and what follows it. *)
Fixpoint parse_digits (acc : Z) (s : string) : Z * string :=
  match s with
  | String c r =>
      if is_digit c then parse_digits (10 * acc + Z.of_nat (code c - 48))%Z r
      else (acc, s)
  | EmptyString => (acc, s)
  end.

(** An integer: [0], or a non-zero digit and more digits; a fraction or
    an exponent is refused. *)
Definition parse_int (s : string) : option (Z * string) :=
  match s with
  | String c r =>
      if is_digit c then
        let '(n, rest) := if is_code c 48 then (0%Z, r) else parse_digits 0 s in
        match rest with
        | String d _ => if is_code d 46 || is_code d 101 || is_code d 69 then None else Some (n, rest)
        | EmptyString => Some (n, rest)
        end
      else None
  | EmptyString => None
  end.

(** A later member of the same name replaces the earlier value. *)
Fixpoint set_prop (k : string) (v : jsval Z) (props : list (string * jsval Z)) :
    list (string * jsval Z) :=
  match props with
  | (k', v') :: r => if String.eqb k' k then (k', v) :: r else (k', v') :: set_prop k v r
  | [] => [(k, v)]
  end.

(** What follows the literal [p] at the head of [s]. *)
Fixpoint after_literal (p s : string) : option string :=
  match p with
  | String a p' =>
      match s with
      | String b s' => if Ascii.eqb a b then after_literal p' s' else None
      | EmptyString => None
      end
  | EmptyString => Some s
  end.

Definition expect (p : string) (v : jsval Z) (s : string) : option (jsval Z * string) :=
  match after_literal p s with
  | Some rest => Some (v, rest)
  | None => None
  end.

Fixpoint parse_value (fuel : nat) (s : string) : option (jsval Z * string) :=
  match fuel with
  | S fuel =>
      match skip_ws s with
      | String c r =>
          if is_code c 123 then
            match skip_ws r with
            | String c' r' =>
                if is_code c' 125 then Some (JObj [], r') else parse_members fuel [] (skip_ws r)
            | EmptyString => None
            end
          else if is_code c 91 then
            match skip_ws r with
            | String c' r' =>
                if is_code c' 93 then Some (JArr [], r') else parse_elements fuel [] (skip_ws r)
            | EmptyString => None
            end
          else if is_code c 34 then
            match parse_chars r with
            | Some (str, rest) => Some (JStr str, rest)
            | None => None
            end
          else if is_code c 45 then
            match parse_int r with
            | Some (n, rest) => Some (JNum (- n)%Z, rest)
            | None => None
            end
          else if is_digit c then
            match parse_int (String c r) with
            | Some (n, rest) => Some (JNum n, rest)
            | None => None
            end
          else if is_code c 116 then expect "true" (JBool true) (String c r)
          else if is_code c 102 then expect "false" (JBool false) (String c r)
          else if is_code c 110 then expect "null" JNull (String c r)
          else None
      | EmptyString => None
      end
  | O => None
  end

with parse_members (fuel : nat) (acc : list (string * jsval Z)) (s : string) :
    option (jsval Z * string) :=
  match fuel with
  | S fuel =>
      match s with
      | String q r =>
          if is_code q 34 then
            match parse_chars r with
            | Some (k, rest) =>
                match skip_ws rest with
                | String colon rest' =>
                    if is_code colon 58 then
                      match parse_value fuel rest' with
                      | Some (v, rest'') =>
                          match skip_ws rest'' with
                          | String d after =>
                              if is_code d 44 then parse_members fuel (set_prop k v acc) (skip_ws after)
                              else if is_code d 125 then Some (JObj (set_prop k v acc), after)
                              else None
                          | EmptyString => None
                          end
                      | None => None
                      end
                    else None
                | EmptyString => None
                end
            | None => None
            end
          else None
      | EmptyString => None
      end
  | O => None
  end

with parse_elements (fuel : nat) (acc : list (jsval Z)) (s : string) :
    option (jsval Z * string) :=
  match fuel with
  | S fuel =>
      match parse_value fuel s with
      | Some (v, rest) =>
          match skip_ws rest with
          | String d after =>
              if is_code d 44 then parse_elements fuel (acc ++ [v]) after
              else if is_code d 93 then Some (JArr (acc ++ [v]), after)
              else None
          | EmptyString => None
          end
      | None => None
      end
  | O => None
  end.

Definition parse (s : string) : option (jsval Z) :=
  match parse_value (2 * String.length s + 2) s with
  | Some (v, rest) =>
      match skip_ws rest with
      | EmptyString => Some v
      | String _ _ => None
      end
  | None => None
  end.

(** *** The markup: name, email and password required, the e-mail typed
    as such, passwords of at least eight characters, phone numbers
    against a pattern; the company section starts hidden. *)

Definition blank (req : bool) : input :=
  {| value := ""; required := req; custom := ""; aria_invalid := None;
     user_edited := false |}.

Definition demo_markup : dom :=
  {| f_name := blank true; f_email := blank true; f_password := blank true;
     f_phone := blank false; companyToggle_checked := false;
     f_company := blank false; f_hp := blank false;
     e_name := ""; e_email := ""; e_password := ""; e_phone := "";
     e_company := ""; companySection_hidden := true;
     summary_visually_hidden := true; summary_innerHTML := "" |}.

Fixpoint has_char (p : ascii -> bool) (s : string) : bool :=
  match s with
  | String c r => p c || has_char p r
  | EmptyString => false
  end.

Fixpoint all_chars (p : ascii -> bool) (s : string) : bool :=
  match s with
  | String c r => p c && all_chars p r
  | EmptyString => true
  end.

(** A value that is not empty and has no [@] is not an e-mail address. *)
Definition demo_typeMismatch (f : field_id) (v : string) : bool :=
  match f with
  | Email => negb (falsy_string v) && negb (has_char (fun c => is_code c 64) v)
  | _ => false
  end.

Definition demo_tooShort (f : field_id) (edited : bool) (v : string) : bool :=
  match f with
  | Password => edited && negb (falsy_string v) && Nat.ltb (String.length v) 8
  | _ => false
  end.

(** The phone pattern: an optional [+], then digits and spaces. *)
Definition demo_otherMismatch (f : field_id) (edited : bool) (v : string) : bool :=
  match f with
  | Phone =>
      negb (falsy_string v)
      && negb (all_chars (fun c => is_digit c || is_code c 32)
                 (if startsWith "+" v then slice1 v else v))
  | _ => false
  end.

Definition demo_platform : Platform :=
  {| markup := demo_markup;
     dom_order := [Name; Email; Password; Phone; Company; Hp];
     typeMismatch := demo_typeMismatch;
     tooShort := demo_tooShort;
     otherMismatch := demo_otherMismatch;
     nativeMessage := fun _ _ _ _ => "Please match the requested format.";
     number := Z;
     number_truthy := fun n => negb (Z.eqb n 0);
     number_ToString := pretty;
     JSON_stringify := stringify;
     JSON_parse := parse |}.

#[local] Existing Instance demo_platform.

(** *** Some pages *)

(** The page as it loads on a first visit. *)
Definition first_visit : page := page_load ∅.

(** The document after a reload over a draft with no name and with an
    e-mail that is not an address: the values are back, no validator
    has run yet. *)
Definition reloaded : dom :=
  set_field Email (with_value "bad" (f_email demo_markup)) demo_markup.

(** A form filled in by a company. *)
Definition filled : page :=
  run [UserInput Name "Ada Lovelace"; UserInput Email "ada@example.org";
       UserInput Password "Secret123"; UserInput Phone "040 123 4567";
       UserToggle; UserInput Company "Analytical Engines"]
    first_visit.

(** A valid form, submitted, its request on the way. *)
Definition submitted : page :=
  run [UserInput Name "Ada Lovelace"; UserInput Email "ada@example.org";
       UserInput Password "Secret123"; SubmitForm "2024-05-01T10:00:00.000Z"]
    first_visit.

(** The blob of [filled], cut after its first 20 characters. *)
Definition truncated_blob : string :=
  String.substring 0 20 (stringify (draft_data (doc filled))).

End Demo.

(** * Properties *)

(** Case analysis on the tests of a validator, once the reads of the
    element are reduced to reads of the field it came from. *)
Ltac split_tests :=
  cbn [setCustomValidity set_aria_invalid value required custom
       aria_invalid user_edited field];
  repeat match goal with
         | |- context [if ?c then _ else _] => destruct c eqn:?
         end.

(** Reduction of the document's getters and setters, and nothing else. *)
Ltac dom_simpl :=
  cbn [verdict verdicts render set_field set_errorEl set_summary set_hidden
       set_checked field errorEl applies f_name f_email f_password f_phone
       f_company f_hp e_name e_email e_password e_phone e_company
       companyToggle_checked companySection_hidden summary_visually_hidden
       summary_innerHTML fst snd negb].

(** Reduction of the page's getters and setters, and nothing else. *)
Ltac page_simpl :=
  cbn [doc localStorage console alerts focused fetched awaiting clock timers
       next_timer save_on_input save_on_change with_doc on_doc
       with_localStorage with_console with_alerts with_focused with_fetched
       with_awaiting with_clock with_timers with_next_timer
       with_save_on_input with_save_on_change console_log console_error
       alert focus getItem setItem removeItem fst snd] in *.

(** The state-and-exception monad, unfolded. *)
Ltac run_M :=
  unfold try_catch, lift, modify, gets, assign_value, mbind, M_bind, mret, M_ret.

Section Validators.

Context `{Platform}.

Lemma falsy_string_spec (s : string) : falsy_string s = true <-> s = "".
Proof. unfold falsy_string. apply String.eqb_eq. Qed.

Lemma validateName_verdict (d : dom) :
  validateName d = (checkValidity Name (settle Name (f_name d)), verdict Name d).
Proof.
  unfold validateName, verdict, settle, chosen, valueMissing.
  split_tests; destruct d; reflexivity.
Qed.

Lemma validateEmail_verdict (d : dom) :
  validateEmail d = (checkValidity Email (settle Email (f_email d)), verdict Email d).
Proof.
  unfold validateEmail, verdict, settle, chosen, valueMissing.
  split_tests; destruct d; reflexivity.
Qed.

Lemma validatePassword_verdict (d : dom) :
  validatePassword d
  = (checkValidity Password (settle Password (f_password d)), verdict Password d).
Proof.
  unfold validatePassword, verdict, settle, chosen, valueMissing.
  split_tests; destruct d; reflexivity.
Qed.

Lemma checkValidity_cleared (f : field_id) (el : input) :
  checkValidity f (setCustomValidity "" el) = negb (markupInvalid f el).
Proof.
  unfold checkValidity, customError. cbn. now rewrite orb_false_r.
Qed.

Lemma validatePhone_verdict (d : dom) :
  validatePhone d = (checkValidity Phone (settle Phone (f_phone d)), verdict Phone d).
Proof.
  unfold validatePhone, verdict, settle, chosen.
  rewrite checkValidity_cleared, negb_involutive.
  split_tests; destruct d; reflexivity.
Qed.

Lemma validateCompany_verdict (d : dom) :
  validateCompany d
  = if companySection_hidden d then (true, d)
    else (checkValidity Company (settle Company (f_company d)), verdict Company d).
Proof.
  unfold validateCompany, verdict, settle, chosen, valueMissing.
  split_tests; destruct d; reflexivity.
Qed.

Lemma validator_verdict (f : field_id) (d : dom) :
  validator f d
  = if applies f d then (checkValidity f (settle f (field f d)), verdict f d)
    else (true, d).
Proof.
  destruct f; cbn [validator applies field].
  - apply validateName_verdict.
  - apply validateEmail_verdict.
  - apply validatePassword_verdict.
  - apply validatePhone_verdict.
  - rewrite validateCompany_verdict. now destruct (companySection_hidden d).
  - reflexivity.
Qed.

(** The rules read the value, the [required] attribute and the edit
    flag only. *)
Lemma chosen_settle (f : field_id) (el : input) :
  chosen f (settle f el) = chosen f el.
Proof. destruct f; reflexivity. Qed.

Lemma settle_idempotent (f : field_id) (el : input) :
  settle f (settle f el) = settle f el.
Proof.
  unfold settle at 1. rewrite chosen_settle. unfold settle.
  destruct el; reflexivity.
Qed.

Lemma checkValidity_settle (f : field_id) (el : input) :
  checkValidity f (settle f el)
  = checkValidity f (setCustomValidity (chosen f el) el).
Proof. reflexivity. Qed.

Lemma settle_marker (f : field_id) (el : input) :
  aria_invalid (settle f el)
  = Some (String_of_bool (negb (checkValidity f (settle f el)))).
Proof. reflexivity. Qed.

Lemma verdict_field (f g : field_id) (d : dom) :
  f <> Hp ->
  field g (verdict f d) = if decide (f = g) then settle f (field f d) else field g d.
Proof.
  intros Hf. destruct d, f, g; try congruence; case_decide; try congruence;
    reflexivity.
Qed.

Lemma verdict_errorEl (f g : field_id) (d : dom) :
  f <> Hp -> g <> Hp ->
  errorEl g (verdict f d)
  = if decide (f = g) then validationMessage f (settle f (field f d))
    else errorEl g d.
Proof.
  intros Hf Hg. destruct d, f, g; try congruence; case_decide; try congruence;
    reflexivity.
Qed.

Lemma verdict_hidden (f : field_id) (d : dom) :
  companySection_hidden (verdict f d) = companySection_hidden d.
Proof. destruct d, f; reflexivity. Qed.

Lemma verdict_idempotent (f : field_id) (d : dom) :
  verdict f (verdict f d) = verdict f d.
Proof.
  destruct d, f; dom_simpl; rewrite ?settle_idempotent; reflexivity.
Qed.

Lemma verdicts_idempotent (d : dom) : verdicts (verdicts d) = verdicts d.
Proof.
  destruct d as [n e p ph t c h en ee ep eph ec [] sv sh]; dom_simpl;
    rewrite ?settle_idempotent; reflexivity.
Qed.

Lemma verdicts_render (l : list string) (d : dom) :
  verdicts (render l d) = render l (verdicts d).
Proof.
  unfold render. destruct (negb _);
    destruct d as [n e p ph t c h en ee ep eph ec [] sv sh]; reflexivity.
Qed.

Lemma problems_of_render (l : list string) (d : dom) :
  problems_of (render l d) = problems_of d.
Proof. unfold render. destruct (negb _); destruct d; reflexivity. Qed.

Lemma render_render (l : list string) (d : dom) :
  render l (render l d) = render l d.
Proof. unfold render. destruct (negb _); destruct d; reflexivity. Qed.

(** [buildSummary] writes every applicable verdict and renders the
    failures it met on the way. *)
Lemma buildSummary_verdicts (d : dom) :
  buildSummary d = render (problems_of (verdicts d)) (verdicts d).
Proof.
  unfold buildSummary.
  rewrite validateName_verdict.
  rewrite validateEmail_verdict.
  rewrite validatePassword_verdict.
  rewrite validatePhone_verdict.
  rewrite validateCompany_verdict.
  unfold push_problem, problems_of, validated, verdicts.
  rewrite !verdict_hidden.
  destruct d as [n e p ph t c h en ee ep eph ec [] sv sh]; dom_simpl;
    cbn [flat_map app]; dom_simpl.
  all: repeat match goal with
              | |- context [checkValidity ?f ?el] => destruct (checkValidity f el)
              end; reflexivity.
Qed.

(** C7. Building the summary twice in a row, with nothing changed in
    between, renders the same text both times and leaves the region
    shown or hidden as the first call left it; indeed the whole document
    is the same after the second call as after the first. *)
Theorem buildSummary_idempotent (d : dom) :
  let once := buildSummary d in
  let twice := buildSummary once in
  summary_innerHTML twice = summary_innerHTML once
  /\ summary_visually_hidden twice = summary_visually_hidden once
  /\ twice = once.
Proof.
  cbv zeta.
  assert (E : buildSummary (buildSummary d) = buildSummary d).
  { rewrite (buildSummary_verdicts (buildSummary d)).
    rewrite (buildSummary_verdicts d).
    rewrite verdicts_render, problems_of_render, verdicts_idempotent.
    apply render_render. }
  rewrite E. repeat split.
Qed.

(** *** The validity check of the submit listener *)

Lemma verdict_commute (f g : field_id) (d : dom) :
  verdict f (verdict g d) = verdict g (verdict f d).
Proof.
  destruct (decide (f = g)) as [->|Hne]; [reflexivity|].
  destruct d, f, g; try congruence; reflexivity.
Qed.

Lemma verdicts_verdict (f : field_id) (d : dom) :
  applies f d = true -> verdicts (verdict f d) = verdicts d.
Proof.
  destruct d as [n e p ph t c h en ee ep eph ec [] sv sh], f;
    cbn [applies companySection_hidden negb]; try discriminate; intros _;
    dom_simpl; rewrite ?settle_idempotent; reflexivity.
Qed.

Lemma validator_verdicts (f : field_id) (d : dom) :
  verdicts (snd (validator f d)) = verdicts d.
Proof.
  rewrite validator_verdict. destruct (applies f d) eqn:E; [|reflexivity].
  now apply verdicts_verdict.
Qed.

(** A validator's answer depends on its own field only. *)
Lemma validator_answer (f g : field_id) (d : dom) :
  f <> g ->
  fst (validator f (snd (validator g d))) = fst (validator f d).
Proof.
  intros Hne. rewrite !validator_verdict.
  destruct (applies g d) eqn:Eg; [|reflexivity]. cbn [snd].
  assert (Ea : applies f (verdict g d) = applies f d).
  { destruct f; cbn [applies]; try reflexivity. now rewrite verdict_hidden. }
  rewrite Ea. destruct (applies f d) eqn:Ef; [|reflexivity]. cbn [fst].
  destruct d, f, g; try congruence; try discriminate; reflexivity.
Qed.

(** The validators of the chain, one after the other. *)
Lemma email_after_name (d : dom) :
  fst (validateEmail (snd (validateName d))) = fst (validateEmail d).
Proof. exact (validator_answer Email Name d ltac:(discriminate)). Qed.

Lemma password_after_name (d : dom) :
  fst (validatePassword (snd (validateName d))) = fst (validatePassword d).
Proof. exact (validator_answer Password Name d ltac:(discriminate)). Qed.

Lemma password_after_email (d : dom) :
  fst (validatePassword (snd (validateEmail d))) = fst (validatePassword d).
Proof. exact (validator_answer Password Email d ltac:(discriminate)). Qed.

Lemma phone_after_name (d : dom) :
  fst (validatePhone (snd (validateName d))) = fst (validatePhone d).
Proof. exact (validator_answer Phone Name d ltac:(discriminate)). Qed.

Lemma phone_after_email (d : dom) :
  fst (validatePhone (snd (validateEmail d))) = fst (validatePhone d).
Proof. exact (validator_answer Phone Email d ltac:(discriminate)). Qed.

Lemma phone_after_password (d : dom) :
  fst (validatePhone (snd (validatePassword d))) = fst (validatePhone d).
Proof. exact (validator_answer Phone Password d ltac:(discriminate)). Qed.

Lemma company_after_name (d : dom) :
  fst (validateCompany (snd (validateName d))) = fst (validateCompany d).
Proof. exact (validator_answer Company Name d ltac:(discriminate)). Qed.

Lemma company_after_email (d : dom) :
  fst (validateCompany (snd (validateEmail d))) = fst (validateCompany d).
Proof. exact (validator_answer Company Email d ltac:(discriminate)). Qed.

Lemma company_after_password (d : dom) :
  fst (validateCompany (snd (validatePassword d))) = fst (validateCompany d).
Proof. exact (validator_answer Company Password d ltac:(discriminate)). Qed.

Lemma company_after_phone (d : dom) :
  fst (validateCompany (snd (validatePhone d))) = fst (validateCompany d).
Proof. exact (validator_answer Company Phone d ltac:(discriminate)). Qed.

Lemma verdicts_after_name (d : dom) : verdicts (snd (validateName d)) = verdicts d.
Proof. exact (validator_verdicts Name d). Qed.

Lemma verdicts_after_email (d : dom) : verdicts (snd (validateEmail d)) = verdicts d.
Proof. exact (validator_verdicts Email d). Qed.

Lemma verdicts_after_password (d : dom) :
  verdicts (snd (validatePassword d)) = verdicts d.
Proof. exact (validator_verdicts Password d). Qed.

Lemma verdicts_after_phone (d : dom) : verdicts (snd (validatePhone d)) = verdicts d.
Proof. exact (validator_verdicts Phone d). Qed.

Lemma verdicts_after_company (d : dom) :
  verdicts (snd (validateCompany d)) = verdicts d.
Proof. exact (validator_verdicts Company d). Qed.

(** The chain of [&&] gives the conjunction of the five answers, as
    each validator would give it on the document the listener started
    from, although it stops at the first that fails. *)
Lemma validity_check_conjunction (d : dom) :
  fst (validity_check d)
  = fst (validateName d) && fst (validateEmail d) && fst (validatePassword d)
    && fst (validatePhone d) && fst (validateCompany d).
Proof.
  rewrite <- (email_after_name d).
  rewrite <- (password_after_name d), <- (password_after_email (snd (validateName d))).
  rewrite <- (phone_after_name d), <- (phone_after_email (snd (validateName d))),
    <- (phone_after_password (snd (validateEmail (snd (validateName d))))).
  rewrite <- (company_after_name d), <- (company_after_email (snd (validateName d))),
    <- (company_after_password (snd (validateEmail (snd (validateName d))))),
    <- (company_after_phone
          (snd (validatePassword (snd (validateEmail (snd (validateName d))))))).
  unfold validity_check.
  destruct (validateName d) as [[] d1]; cbn [fst snd negb andb]; [|reflexivity].
  destruct (validateEmail d1) as [[] d2]; cbn [fst snd negb andb]; [|reflexivity].
  destruct (validatePassword d2) as [[] d3]; cbn [fst snd negb andb]; [|reflexivity].
  destruct (validatePhone d3) as [[] d4]; cbn [fst snd negb andb]; reflexivity.
Qed.

Lemma validity_check_verdicts (d : dom) :
  verdicts (snd (validity_check d)) = verdicts d.
Proof.
  unfold validity_check.
  rewrite <- (verdicts_after_name d).
  destruct (validateName d) as [[] d1]; cbn [fst snd negb]; [|reflexivity].
  rewrite <- (verdicts_after_email d1).
  destruct (validateEmail d1) as [[] d2]; cbn [fst snd negb]; [|reflexivity].
  rewrite <- (verdicts_after_password d2).
  destruct (validatePassword d2) as [[] d3]; cbn [fst snd negb]; [|reflexivity].
  rewrite <- (verdicts_after_phone d3).
  destruct (validatePhone d3) as [[] d4]; cbn [fst snd negb]; [|reflexivity].
  apply verdicts_after_company.
Qed.

(** The summary built after the validity check is the summary of the
    document the listener started from. *)
Lemma buildSummary_validity_check (d : dom) :
  buildSummary (snd (validity_check d)) = buildSummary d.
Proof.
  rewrite (buildSummary_verdicts (snd _)), validity_check_verdicts.
  symmetry. apply buildSummary_verdicts.
Qed.

Lemma buildSummary_current (f : field_id) (d : dom) :
  applies f (buildSummary d) = true -> error_state_current f (buildSummary d).
Proof.
  rewrite buildSummary_verdicts. unfold error_state_current.
  rewrite validator_verdict. intros Ha. rewrite Ha. cbn [snd]. revert Ha.
  unfold render. destruct (negb _);
    destruct d as [n e p ph t c h en ee ep eph ec [] sv sh], f;
    dom_simpl; try discriminate; intros _;
    rewrite ?settle_idempotent; repeat split; reflexivity.
Qed.

Lemma form_submit_doc (time : string) (st : page) :
  doc (form_submit time st) = buildSummary (doc st).
Proof.
  unfold form_submit.
  pose proof (buildSummary_validity_check (doc st)) as Hb.
  destruct (validity_check (doc st)) as [ok d]. cbn [snd] in Hb. rewrite Hb.
  destruct (negb ok), (querySelector_invalid (buildSummary (doc st)));
    try (destruct st; reflexivity);
    destruct (negb (falsy_string _)); destruct st; reflexivity.
Qed.

(** Where the chain stops: the document it leaves when the first
    validator to answer false is that of name, e-mail, password, phone
    or company. *)
Lemma validity_check_stops_at_name (d : dom) :
  fst (validateName d) = false ->
  validity_check d = (false, verdict Name d).
Proof.
  unfold validity_check. rewrite validateName_verdict. cbn [fst].
  intros ->. reflexivity.
Qed.

Lemma validity_check_stops_at_email (d : dom) :
  fst (validateName d) = true ->
  fst (validateEmail d) = false ->
  validity_check d = (false, verdict Email (verdict Name d)).
Proof.
  intros H1 H2. rewrite <- email_after_name in H2. revert H1 H2.
  unfold validity_check. rewrite validateName_verdict. cbn [fst snd].
  intros ->. cbn [negb]. rewrite validateEmail_verdict. cbn [fst].
  intros ->. reflexivity.
Qed.

Lemma validity_check_stops_at_password (d : dom) :
  fst (validateName d) = true ->
  fst (validateEmail d) = true ->
  fst (validatePassword d) = false ->
  validity_check d = (false, verdict Password (verdict Email (verdict Name d))).
Proof.
  intros H1 H2 H3. rewrite <- email_after_name in H2.
  rewrite <- password_after_name,
    <- (password_after_email (snd (validateName d))) in H3.
  revert H1 H2 H3.
  unfold validity_check. rewrite validateName_verdict. cbn [fst snd].
  intros ->. cbn [negb]. rewrite validateEmail_verdict. cbn [fst snd].
  intros ->. cbn [negb]. rewrite validatePassword_verdict. cbn [fst].
  intros ->. reflexivity.
Qed.

Lemma validity_check_stops_at_phone (d : dom) :
  fst (validateName d) = true ->
  fst (validateEmail d) = true ->
  fst (validatePassword d) = true ->
  fst (validatePhone d) = false ->
  validity_check d
  = (false, verdict Phone (verdict Password (verdict Email (verdict Name d)))).
Proof.
  intros H1 H2 H3 H4. rewrite <- email_after_name in H2.
  rewrite <- password_after_name,
    <- (password_after_email (snd (validateName d))) in H3.
  rewrite <- phone_after_name, <- (phone_after_email (snd (validateName d))),
    <- (phone_after_password (snd (validateEmail (snd (validateName d))))) in H4.
  revert H1 H2 H3 H4.
  unfold validity_check. rewrite validateName_verdict. cbn [fst snd].
  intros ->. cbn [negb]. rewrite validateEmail_verdict. cbn [fst snd].
  intros ->. cbn [negb]. rewrite validatePassword_verdict. cbn [fst snd].
  intros ->. cbn [negb]. rewrite validatePhone_verdict. cbn [fst].
  intros ->. reflexivity.
Qed.

Lemma validity_check_reaches_company (d : dom) :
  fst (validateName d) = true ->
  fst (validateEmail d) = true ->
  fst (validatePassword d) = true ->
  fst (validatePhone d) = true ->
  validity_check d
  = validateCompany
      (verdict Phone (verdict Password (verdict Email (verdict Name d)))).
Proof.
  intros H1 H2 H3 H4. rewrite <- email_after_name in H2.
  rewrite <- password_after_name,
    <- (password_after_email (snd (validateName d))) in H3.
  rewrite <- phone_after_name, <- (phone_after_email (snd (validateName d))),
    <- (phone_after_password (snd (validateEmail (snd (validateName d))))) in H4.
  revert H1 H2 H3 H4.
  unfold validity_check. rewrite validateName_verdict. cbn [fst snd].
  intros ->. cbn [negb]. rewrite validateEmail_verdict. cbn [fst snd].
  intros ->. cbn [negb]. rewrite validatePassword_verdict. cbn [fst snd].
  intros ->. cbn [negb]. rewrite validatePhone_verdict. cbn [fst].
  intros ->. reflexivity.
Qed.

Lemma validated_split (before after : list field_id) (f : field_id) :
  validated = (before ++ f :: after)%list ->
  before = [] /\ f = Name /\ after = [Email; Password; Phone; Company]
  \/ before = [Name] /\ f = Email /\ after = [Password; Phone; Company]
  \/ before = [Name; Email] /\ f = Password /\ after = [Phone; Company]
  \/ before = [Name; Email; Password] /\ f = Phone /\ after = [Company]
  \/ before = [Name; Email; Password; Phone] /\ f = Company /\ after = [].
Proof.
  unfold validated.
  destruct before as [|b0 [|b1 [|b2 [|b3 [|b4 [|b5 before]]]]]]; cbn [app];
    intros E; simplify_eq; tauto.
Qed.

(** The chain is short-circuited: at the first validator that answers
    false it returns false, the fields up to that one carry the verdict
    of their validator, and the fields after it are as they were. *)
Lemma validity_check_short_circuit (d : dom) (before after : list field_id)
    (f : field_id) :
  validated = (before ++ f :: after)%list ->
  (forall g, In g before -> fst (validator g d) = true) ->
  fst (validator f d) = false ->
  fst (validity_check d) = false
  /\ (forall g, In g before \/ g = f ->
        field g (snd (validity_check d)) = field g (snd (validator g d))
        /\ errorEl g (snd (validity_check d)) = errorEl g (snd (validator g d)))
  /\ (forall g, In g after ->
        field g (snd (validity_check d)) = field g d
        /\ errorEl g (snd (validity_check d)) = errorEl g d).
Proof.
  intros Hsplit Hbefore Hf.
  destruct (validated_split _ _ _ Hsplit)
    as [Hs|[Hs|[Hs|[Hs|Hs]]]]; destruct Hs as (-> & -> & ->).
  - rewrite (validity_check_stops_at_name d Hf). cbn [fst snd In].
    split; [reflexivity|]. split.
    + intros g [[]| ->]. cbn [validator]. rewrite validateName_verdict. tauto.
    + intros g Hg. destruct d.
      repeat (destruct Hg as [<-|Hg]; [split; reflexivity|]). destruct Hg.
  - pose proof (Hbefore Name (or_introl eq_refl)) as H1.
    cbn [validator] in H1, Hf.
    rewrite (validity_check_stops_at_email d H1 Hf). cbn [fst snd In].
    split; [reflexivity|]. split.
    + intros g [[<-|[]]| ->]; cbn [validator];
        rewrite ?validateName_verdict, ?validateEmail_verdict; cbn [snd];
        destruct d; split; reflexivity.
    + intros g Hg. destruct d.
      repeat (destruct Hg as [<-|Hg]; [split; reflexivity|]). destruct Hg.
  - pose proof (Hbefore Name (or_introl eq_refl)) as H1.
    pose proof (Hbefore Email (or_intror (or_introl eq_refl))) as H2.
    cbn [validator] in H1, H2, Hf.
    rewrite (validity_check_stops_at_password d H1 H2 Hf). cbn [fst snd In].
    split; [reflexivity|]. split.
    + intros g [[<-|[<-|[]]]| ->]; cbn [validator];
        rewrite ?validateName_verdict, ?validateEmail_verdict,
          ?validatePassword_verdict; cbn [snd];
        destruct d; split; reflexivity.
    + intros g Hg. destruct d.
      repeat (destruct Hg as [<-|Hg]; [split; reflexivity|]). destruct Hg.
  - pose proof (Hbefore Name (or_introl eq_refl)) as H1.
    pose proof (Hbefore Email (or_intror (or_introl eq_refl))) as H2.
    pose proof (Hbefore Password (or_intror (or_intror (or_introl eq_refl)))) as H3.
    cbn [validator] in H1, H2, H3, Hf.
    rewrite (validity_check_stops_at_phone d H1 H2 H3 Hf). cbn [fst snd In].
    split; [reflexivity|]. split.
    + intros g [[<-|[<-|[<-|[]]]]| ->]; cbn [validator];
        rewrite ?validateName_verdict, ?validateEmail_verdict,
          ?validatePassword_verdict, ?validatePhone_verdict; cbn [snd];
        destruct d; split; reflexivity.
    + intros g Hg. destruct d.
      repeat (destruct Hg as [<-|Hg]; [split; reflexivity|]). destruct Hg.
  - pose proof (Hbefore Name (or_introl eq_refl)) as H1.
    pose proof (Hbefore Email (or_intror (or_introl eq_refl))) as H2.
    pose proof (Hbefore Password (or_intror (or_intror (or_introl eq_refl)))) as H3.
    pose proof (Hbefore Phone
                  (or_intror (or_intror (or_intror (or_introl eq_refl))))) as H4.
    cbn [validator] in H1, H2, H3, H4, Hf.
    rewrite (validity_check_reaches_company d H1 H2 H3 H4).
    rewrite <- company_after_name, <- (company_after_email (snd (validateName d))),
      <- (company_after_password (snd (validateEmail (snd (validateName d))))),
      <- (company_after_phone
            (snd (validatePassword (snd (validateEmail (snd (validateName d)))))))
      in Hf.
    rewrite validateName_verdict in Hf. cbn [snd] in Hf.
    rewrite validateEmail_verdict in Hf. cbn [snd] in Hf.
    rewrite validatePassword_verdict in Hf. cbn [snd] in Hf.
    rewrite validatePhone_verdict in Hf. cbn [snd] in Hf.
    split; [exact Hf|]. split; [|intros g []].
    revert Hf. rewrite !validateCompany_verdict, !verdict_hidden.
    destruct (companySection_hidden d) eqn:Eh; [discriminate|]. intros _.
    cbn [snd].
    intros g [[<-|[<-|[<-|[<-|[]]]]]| ->]; cbn [validator];
      rewrite ?validateName_verdict, ?validateEmail_verdict,
        ?validatePassword_verdict, ?validatePhone_verdict,
        ?validateCompany_verdict, ?Eh; cbn [snd];
      destruct d; split; reflexivity.
Qed.

(** C1 (as the script has it). On every submit event, whatever the page
    it meets, the listener first evaluates the chain [validateName() && validateEmail() &&
    validatePassword() && validatePhone() && validateCompany()].  Its
    value is the conjunction of the five answers, but it is
    short-circuited: at the first validator that answers false it
    stops, and the fields that come after are left as they were, their
    validators not invoked.  The listener then rebuilds the summary,
    which runs the validators of name, e-mail, password and phone
    whatever they answer, and the company validator while the company
    section is shown.  So it is after the rebuild, and not after the
    validity check, that the error text and the invalid marker of each
    of them reflect the field's current value; the company validator is
    the only one left out, while it has nothing to do. *)
Theorem submit_validation_current (time : string) (st : page) :
  let d := doc st in
  let checked := validity_check d in
  let st' := step (SubmitForm time) st in
  fst checked
  = fst (validateName d) && fst (validateEmail d) && fst (validatePassword d)
    && fst (validatePhone d) && fst (validateCompany d)
  /\ (forall before f after,
        validated = (before ++ f :: after)%list ->
        (forall g, In g before -> fst (validator g d) = true) ->
        fst (validator f d) = false ->
        fst checked = false
        /\ (forall g, In g before \/ g = f ->
              field g (snd checked) = field g (snd (validator g d))
              /\ errorEl g (snd checked) = errorEl g (snd (validator g d)))
        /\ (forall g, In g after ->
              field g (snd checked) = field g d
              /\ errorEl g (snd checked) = errorEl g d))
  /\ doc st' = buildSummary (snd checked)
  /\ (forall f, In f validated ->
        if applies f (doc st') then error_state_current f (doc st')
        else f = Company /\ validator f (doc st') = (true, doc st')).
Proof.
  cbv zeta. split; [apply validity_check_conjunction|].
  split; [intros before f after; apply validity_check_short_circuit|].
  cbn [step]. rewrite form_submit_doc, buildSummary_validity_check.
  split; [reflexivity|].
  intros f Hf.
  destruct (applies f (buildSummary (doc st))) eqn:Ha.
  - now apply buildSummary_current.
  - rewrite validator_verdict, Ha. split; [|reflexivity].
    destruct f; cbn [applies] in Ha; try discriminate; try reflexivity.
    cbn in Hf. intuition discriminate.
Qed.

(** *** Halting on an invalid form *)

(** A validator that answers false marks its field. *)
Lemma failing_validator_marks (f : field_id) (d : dom) :
  In f validated ->
  fst (validator f d) = false ->
  marked_invalid (buildSummary d) f = true.
Proof.
  intros Hf. rewrite validator_verdict, buildSummary_verdicts.
  destruct (applies f d) eqn:Ha; [|discriminate]. cbn [fst]. intros Hc.
  unfold marked_invalid, render. revert Ha Hc.
  destruct (negb _);
    destruct d as [n e p ph t c h en ee ep eph ec [] sv sh], f;
    dom_simpl; try discriminate; intros _ Hc;
    rewrite settle_marker, Hc; reflexivity.
Qed.

Lemma find_first {A} (p : A -> bool) (l : list A) (x : A) :
  List.find p l = Some x ->
  exists before after,
    l = (before ++ x :: after)%list
    /\ p x = true
    /\ (forall y, In y before -> p y = false).
Proof.
  induction l as [|a l IH]; cbn [List.find]; [discriminate|].
  destruct (p a) eqn:Ea.
  - intros [= ->]. exists [], l. repeat split; [assumption|]. intros y [].
  - intros Hx. destruct (IH Hx) as (b & c & -> & Hp & Hb).
    exists (a :: b), c. repeat split; [assumption|].
    intros y [<-|Hy]; [assumption|now apply Hb].
Qed.

Lemma conjunction_fails (d : dom) :
  fst (validateName d) && fst (validateEmail d) && fst (validatePassword d)
  && fst (validatePhone d) && fst (validateCompany d) = false ->
  exists f, In f validated /\ fst (validator f d) = false.
Proof.
  intros Hc.
  destruct (fst (validateName d)) eqn:E1;
    [|exists Name; split; [cbn; tauto|exact E1]].
  destruct (fst (validateEmail d)) eqn:E2;
    [|exists Email; split; [cbn; tauto|exact E2]].
  destruct (fst (validatePassword d)) eqn:E3;
    [|exists Password; split; [cbn; tauto|exact E3]].
  destruct (fst (validatePhone d)) eqn:E4;
    [|exists Phone; split; [cbn; tauto|exact E4]].
  exists Company. split; [cbn; tauto|exact Hc].
Qed.

(** C8. On submit, when the conjunction of the five validator answers
    is false, the listener calls [focus] on the first field of the form,
    in document order, that is marked invalid, and returns there: no
    request is issued, no dialog is shown.  The five validated inputs
    are taken to be descendants of the form, as the markup has them. *)
Theorem submit_invalid_focuses_first (time : string) (st : page) :
  (forall f, In f validated -> In f dom_order) ->
  fst (validateName (doc st)) && fst (validateEmail (doc st))
  && fst (validatePassword (doc st)) && fst (validatePhone (doc st))
  && fst (validateCompany (doc st)) = false ->
  let st' := form_submit time st in
  exists f before after,
    dom_order = (before ++ f :: after)%list
    /\ marked_invalid (doc st') f = true
    /\ (forall g, In g before -> marked_invalid (doc st') g = false)
    /\ st' = focus f (on_doc buildSummary st)
    /\ fetched st' = fetched st
    /\ awaiting st' = awaiting st
    /\ alerts st' = alerts st.
Proof.
  intros Hform Hc. cbv zeta. unfold form_submit.
  pose proof (validity_check_conjunction (doc st)) as Hv.
  pose proof (buildSummary_validity_check (doc st)) as Hb.
  destruct (validity_check (doc st)) as [isValid d1]. cbn [fst snd] in Hv, Hb.
  rewrite Hb. rewrite Hv, Hc. cbn [negb].
  destruct (conjunction_fails _ Hc) as (f & Hf & Hfail).
  pose proof (failing_validator_marks f (doc st) Hf Hfail) as Hm.
  unfold querySelector_invalid.
  destruct (List.find (marked_invalid (buildSummary (doc st))) dom_order)
    as [g|] eqn:Efind.
  - destruct (find_first _ _ _ Efind) as (b & a & Hl & Hg & Hbefore).
    exists g, b, a. destruct st; page_simpl. repeat split; assumption.
  - exfalso. pose proof (List.find_none _ _ Efind f (Hform f Hf)) as Hn.
    congruence.
Qed.

End Validators.

Section Store.

Context `{Platform}.

Abbreviation js := (jsval number).

(** *** What each listener does to the draft store *)

Lemma debounced_localStorage (fn : task) (wait : nat) (t : option nat) (st : page) :
  localStorage (snd (debounced fn wait t st)) = localStorage st.
Proof. destruct st, t; reflexivity. Qed.

Lemma field_input_localStorage (f : field_id) (st : page) :
  localStorage (field_input f st) = localStorage st.
Proof. destruct st; reflexivity. Qed.

Lemma form_input_localStorage (st : page) :
  localStorage (form_input st) = localStorage st.
Proof. destruct st as [? ? ? ? ? ? ? ? ? ? [] ?]; reflexivity. Qed.

Lemma form_change_localStorage (st : page) :
  localStorage (form_change st) = localStorage st.
Proof. destruct st as [? ? ? ? ? ? ? ? ? ? ? []]; reflexivity. Qed.

Lemma phone_blur_localStorage (st : page) :
  localStorage (phone_blur st) = localStorage st.
Proof. destruct st; reflexivity. Qed.

Lemma form_submit_localStorage (time : string) (st : page) :
  localStorage (form_submit time st) = localStorage st.
Proof.
  unfold form_submit. destruct (validity_check (doc st)) as [ok d].
  destruct (negb ok), (querySelector_invalid (buildSummary d));
    try (destruct st; reflexivity);
    destruct (negb (falsy_string _)); destruct st; reflexivity.
Qed.

Lemma submit_settled_localStorage (payload : js) (o : fetch_outcome) (st : page) :
  localStorage (snd (submit_settled payload o st)) = localStorage st.
Proof.
  unfold submit_settled, try_catch, lift, modify, mbind, M_bind.
  destruct o as [e|r]; [destruct st; reflexivity|].
  destruct (response_json r) as [data|e]; [|destruct st; reflexivity].
  destruct (get_prop data "id") as [id|e]; [|destruct st; reflexivity].
  destruct (ToString id) as [shown|e]; destruct st; reflexivity.
Qed.

Lemma saveDraft_stores (st : page) :
  getItem STORAGE_KEY (saveDraft st)
  = Some (JSON_stringify (draft_data (doc st))).
Proof.
  destruct st; unfold saveDraft, getItem, setItem. cbn.
  apply lookup_insert_eq.
Qed.

Lemma run_task_keeps_draft (fn : task) (st : page) :
  is_Some (getItem STORAGE_KEY st) ->
  is_Some (getItem STORAGE_KEY (run_task fn st)).
Proof.
  destruct fn as [f|]; cbn [run_task].
  - destruct st; intros Hs; exact Hs.
  - intros _. rewrite saveDraft_stores. eauto.
Qed.

Lemma run_timers_keeps_draft (fuel until : nat) (st : page) :
  is_Some (getItem STORAGE_KEY st) ->
  is_Some (getItem STORAGE_KEY (snd (run_timers fuel until st))).
Proof.
  revert st. induction fuel as [|fuel IH]; intros st Hs; cbn [run_timers];
    [exact Hs|].
  destruct (next_due (timers st)) as [t|]; [|exact Hs].
  destruct (Nat.leb (due t) until); [|exact Hs].
  match goal with
  | |- context [run_timers fuel until ?s] =>
      specialize (IH s); destruct (run_timers fuel until s) as [ran st']
  end.
  cbn [snd] in *. apply IH. apply run_task_keeps_draft.
  destruct st; exact Hs.
Qed.

Lemma elapse_keeps_draft (dt : nat) (st : page) :
  is_Some (getItem STORAGE_KEY st) ->
  is_Some (getItem STORAGE_KEY (snd (elapse dt st))).
Proof.
  intros Hs. unfold elapse.
  pose proof (run_timers_keeps_draft (length (timers st)) (clock st + dt) st Hs)
    as Hr.
  destruct (run_timers _ _ st) as [ran st']. cbn [snd] in *.
  destruct st'; exact Hr.
Qed.

Lemma clearBtn_click_removes (st : page) :
  getItem STORAGE_KEY (clearBtn_click st) = None.
Proof.
  destruct st; unfold clearBtn_click, getItem, removeItem. cbn.
  apply lookup_delete_eq.
Qed.

(** C10. The submit listener leaves the store as it is, on every path:
    up to the request (invalid form, bot trap, request sent) and when
    the request settles (success or failure).  Of all the events only
    the click on Clear removes the draft: after any other event a draft
    that was there is still there. *)
Theorem submit_keeps_draft :
  (forall time st, localStorage (form_submit time st) = localStorage st)
  /\ (forall payload o st,
        localStorage (snd (submit_settled payload o st)) = localStorage st)
  /\ (forall e st,
        e <> ClearClick ->
        is_Some (getItem STORAGE_KEY st) ->
        is_Some (getItem STORAGE_KEY (step e st)))
  /\ (forall st, getItem STORAGE_KEY (clearBtn_click st) = None).
Proof.
  split; [exact form_submit_localStorage|].
  split; [exact submit_settled_localStorage|].
  split; [|exact clearBtn_click_removes].
  intros e st Hne Hs. unfold getItem in *.
  destruct e as [f v|f| | | |time|i o|dt]; cbn [step].
  - rewrite form_input_localStorage.
    destruct f; rewrite ?field_input_localStorage; destruct st; exact Hs.
  - now rewrite form_change_localStorage.
  - rewrite form_change_localStorage.
    match goal with |- context [on_doc ?g ?s] =>
      replace (localStorage (on_doc g s)) with (localStorage s)
        by (destruct s; reflexivity) end.
    rewrite form_input_localStorage. destruct st; exact Hs.
  - now rewrite phone_blur_localStorage.
  - congruence.
  - now rewrite form_submit_localStorage.
  - destruct (awaiting st !! i); [|exact Hs].
    rewrite submit_settled_localStorage. destruct st; exact Hs.
  - now apply elapse_keeps_draft.
Qed.

End Store.

Section Drafts.

Context `{Platform}.

Abbreviation js := (jsval number).

(** C5 (as the script has it). When the stored blob does not parse,
    [restoreDraft] returns normally and changes nothing of the page
    but the console: the document keeps every field as it was (on page
    load: as the markup gives it), no dialog is shown, and the
    [SyntaxError] is written to the console, once.  The empty blob is
    the exception: the script takes it for no draft at all and returns
    before parsing, so nothing is reported, not even to the console. *)
Theorem restoreDraft_malformed (st : page) (raw : string) :
  getItem STORAGE_KEY st = Some raw ->
  JSON_parse raw = None ->
  let st' := snd (restoreDraft st) in
  fst (restoreDraft st) = Ok tt
  /\ doc st' = doc st
  /\ alerts st' = alerts st
  /\ localStorage st' = localStorage st
  /\ console st'
     = if falsy_string raw then console st
       else (console st ++ [ConsoleError "Restore Error:" (LExn SyntaxError)])%list.
Proof.
  intros Hraw Hparse. cbv zeta. unfold restoreDraft. run_M.
  rewrite Hraw. destruct (falsy_string raw); [repeat split|].
  rewrite Hparse. destruct st; repeat split.
Qed.

Lemma ToString_or_empty (s : string) :
  ToString (js_or (JStr s) (JStr "")) = Ok s.
Proof. destruct s; reflexivity. Qed.

(** C4. A draft saved and then restored gives back the values of name,
    e-mail, phone, password and company and the state of the checkbox,
    and the company section is shown exactly when the restored checkbox
    is checked.  The draft is restored into any page that holds the
    saved blob: the page that saved it, or the page after a reload.
    [JSON.parse] is taken to read back what [JSON.stringify] wrote. *)
Theorem draft_round_trip (st into : page) :
  json_round_trips (draft_data (doc st)) ->
  getItem STORAGE_KEY into = getItem STORAGE_KEY (saveDraft st) ->
  let restored := doc (snd (restoreDraft into)) in
  fst (restoreDraft into) = Ok tt
  /\ value (f_name restored) = value (f_name (doc st))
  /\ value (f_email restored) = value (f_email (doc st))
  /\ value (f_phone restored) = value (f_phone (doc st))
  /\ value (f_password restored) = value (f_password (doc st))
  /\ value (f_company restored) = value (f_company (doc st))
  /\ companyToggle_checked restored = companyToggle_checked (doc st)
  /\ companySection_hidden restored = negb (companyToggle_checked (doc st)).
Proof.
  intros [Hne Hrt] Hinto. cbv zeta. rewrite saveDraft_stores in Hinto.
  unfold restoreDraft. run_M. rewrite Hinto.
  destruct (falsy_string _) eqn:Ef.
  { apply falsy_string_spec in Ef. contradiction. }
  rewrite Hrt. unfold draft_data.
  cbn [get_prop lookup_prop String.eqb Ascii.eqb Bool.eqb ToBoolean].
  rewrite !ToString_or_empty.
  destruct into as [d ? ? ? ? ? ? ? ? ? ? ?]; destruct d; page_simpl.
  cbn [set_field set_checked set_hidden field with_value value f_name f_email
       f_phone f_password f_company companyToggle_checked
       companySection_hidden].
  repeat split.
Qed.

End Drafts.

Section Submission.

Context `{Platform}.

Abbreviation js := (jsval number).

(** The conversion throws on the unprintable values, and on them only. *)
Lemma ToString_unprintable :
  forall v : jsval number,
    if unprintable v then ToString v = Throw TypeError
    else exists s, ToString v = Ok s.
Proof.
  fix IH 1. intros [ | |b|n|s|items|props]; cbn [unprintable ToString];
    try (eexists; reflexivity).
  - match goal with
    | |- context [match ?each items with _ => _ end] =>
        enough (Heach : if existsb unprintable items
                        then each items = Throw TypeError
                        else exists ss, each items = Ok ss);
          [destruct (existsb unprintable items);
             [now rewrite Heach
             |destruct Heach as [ss ->]; eexists; reflexivity]|];
        generalize items
    end.
    fix IHl 1. intros [|x r]; cbn [existsb]; [eexists; reflexivity|].
    pose proof (IH x) as Hx. specialize (IHl r).
    destruct (unprintable x) eqn:Ex; cbn [orb].
    + destruct x; try discriminate Ex; now rewrite Hx.
    + destruct Hx as [s Hs].
      assert (Hs' : match x with
                    | JUndefined | JNull => Ok ""
                    | _ => ToString x
                    end = Ok (match x with
                              | JUndefined | JNull => ""
                              | _ => s
                              end)) by (destruct x; try reflexivity; exact Hs).
      rewrite Hs'.
      destruct (existsb unprintable r).
      * now rewrite IHl.
      * destruct IHl as [ss ->]. eexists; reflexivity.
  - destruct (has_own "toString" props); [reflexivity|eexists; reflexivity].
Qed.

Lemma ToString_throws (v : jsval number) (e : exn) :
  ToString v = Throw e <-> e = TypeError /\ unprintable v = true.
Proof.
  pose proof (ToString_unprintable v) as Hv.
  destruct (unprintable v).
  - rewrite Hv. split; [intros [= <-]; now split|intros [-> _]; reflexivity].
  - destruct Hv as [s ->]. split; [discriminate|intros [_ ?]; discriminate].
Qed.

Lemma get_prop_throws (data : jsval number) (k : string) (e : exn) :
  get_prop data k = Throw e
  <-> e = TypeError /\ (data = JNull \/ data = JUndefined).
Proof.
  destruct data; cbn [get_prop]; split;
    try discriminate; try (intros [_ [?|?]]; discriminate);
    try (intros [= <-]; split; [reflexivity|tauto]);
    intros [-> _]; reflexivity.
Qed.

(** The ways the [try] block of the submit listener throws. *)
Lemma submission_throws (o : fetch_outcome) (e : exn) :
  submission_shows o = Throw e
  <-> o = Rejected e
      \/ exists r,
           o = Resolved r
           /\ (JSON_parse (body_text r) = None /\ e = SyntaxError
               \/ exists data,
                    JSON_parse (body_text r) = Some data
                    /\ e = TypeError
                    /\ (data = JNull \/ data = JUndefined
                        \/ exists id,
                             get_prop data "id" = Ok id
                             /\ unprintable id = true)).
Proof.
  unfold submission_shows, response_json. split.
  - destruct o as [e'|r]; [intros [= ->]; now left|]. intros Hs. right. exists r.
    split; [reflexivity|].
    destruct (JSON_parse (body_text r)) as [data|];
      [|injection Hs as <-; now left].
    right. exists data. split; [reflexivity|].
    destruct (get_prop data "id") as [id|e'] eqn:Eg.
    + apply ToString_throws in Hs. destruct Hs as [-> Hu].
      split; [reflexivity|]. right. right. now exists id.
    + injection Hs as ->. apply get_prop_throws in Eg. destruct Eg as [-> Hd].
      split; [reflexivity|]. tauto.
  - intros [->|(r & -> & [[-> ->]|(data & -> & -> & Hd)])]; try reflexivity.
    destruct Hd as [->|[->|(id & -> & Hu)]]; try reflexivity.
    apply ToString_throws. now split.
Qed.

(** C9 (as the script has it). When the request settles the listener
    returns normally, and it shows the retry notice exactly when its
    [try] block throws.  The block throws in these ways and no other:
    [fetch] rejects; the body of the response is not JSON
    ([SyntaxError]); the body parses to [null], so that reading its [id]
    throws ([TypeError]); the [id] cannot be converted to a string for
    the dialog: it is an object with a member named [toString], or an
    array that holds such a value ([TypeError]).  Then the notice is the
    fixed text, the exception goes to the console and nowhere else, no
    further request is issued, no timer is set, and the store and the
    document are as they were.  The status of a response is never read:
    every response whose body parses and whose [id] converts is reported
    as a success, with that [id]. *)
Theorem submit_settled_outcome (payload : js) (o : fetch_outcome) (st : page) :
  let st' := snd (submit_settled payload o st) in
  fst (submit_settled payload o st) = Ok tt
  /\ (forall e,
        submission_shows o = Throw e
        <-> o = Rejected e
            \/ exists r,
                 o = Resolved r
                 /\ (JSON_parse (body_text r) = None /\ e = SyntaxError
                     \/ exists data,
                          JSON_parse (body_text r) = Some data
                          /\ e = TypeError
                          /\ (data = JNull \/ data = JUndefined
                              \/ exists id,
                                   get_prop data "id" = Ok id
                                   /\ unprintable id = true)))
  /\ match submission_shows o with
     | Throw e =>
         alerts st' = (alerts st ++ [RETRY_NOTICE])%list
         /\ console st'
            = (console st ++ [ConsoleError "Submission Error:" (LExn e)])%list
         /\ fetched st' = fetched st
         /\ awaiting st' = awaiting st
         /\ timers st' = timers st
         /\ localStorage st' = localStorage st
         /\ doc st' = doc st
     | Ok shown =>
         st' = console_log "Submitted Data:" (LValue payload)
                 (alert ("Submitted successfully. Demo ID: " +:+ shown) st)
         /\ exists r data id,
              o = Resolved r
              /\ JSON_parse (body_text r) = Some data
              /\ get_prop data "id" = Ok id
              /\ ToString id = Ok shown
     end.
Proof.
  cbv zeta. split; [|split; [exact (submission_throws o)|]].
  - unfold submit_settled. run_M.
    destruct o as [e|r]; [reflexivity|].
    destruct (response_json r) as [data|e]; [|reflexivity].
    destruct (get_prop data "id") as [id|e]; [|reflexivity].
    destruct (ToString id) as [shown|e]; reflexivity.
  - destruct (submission_shows o) as [shown|e] eqn:Es.
    + unfold submission_shows, response_json in Es. unfold submit_settled. run_M.
      destruct o as [e|r]; [discriminate|]. unfold response_json.
      destruct (JSON_parse (body_text r)) as [data|] eqn:Ep; [|discriminate].
      destruct (get_prop data "id") as [id|e] eqn:Eg; [|discriminate].
      rewrite Es. split; [destruct st; reflexivity|]. now exists r, data, id.
    + unfold submission_shows in Es. unfold submit_settled. run_M.
      destruct o as [e'|r].
      * injection Es as ->. destruct st; repeat split.
      * destruct (response_json r) as [data|e'];
          [|injection Es as ->; destruct st; repeat split].
        destruct (get_prop data "id") as [id|e'];
          [|injection Es as ->; destruct st; repeat split].
        rewrite Es. destruct st; repeat split.
Qed.

End Submission.

Section PhoneNormaliser.

Context `{Platform}.

Lemma replace_all_but_keep_only (p : ascii -> bool) (s : string) :
  replace_all_but p s = keep_only p s.
Proof.
  unfold keep_only. induction s as [|c r IH]; [reflexivity|].
  cbn [replace_all_but list_ascii_of_string List.filter].
  destruct (p c); cbn [string_of_list_ascii String.app]; now rewrite IH.
Qed.

Lemma keep_only_plus_free (r : string) :
  forallb (fun x => negb (is_plus x)) (list_ascii_of_string r) = true ->
  keep_only (fun c => is_digit c || is_plus c) r = keep_only is_digit r.
Proof.
  unfold keep_only. induction r as [|c r IH]; [reflexivity|].
  cbn [list_ascii_of_string forallb List.filter].
  rewrite andb_true_iff, negb_true_iff. intros [Hc Hr]. rewrite Hc, orb_false_r.
  destruct (is_digit c); cbn [string_of_list_ascii]; now rewrite IH.
Qed.

Lemma strip_agree (v : string) :
  plus_only_leads v = true ->
  keep_only (fun c => is_digit c || is_plus c) v = strip_but_leading_plus v.
Proof.
  induction v as [|c r IH]; [reflexivity|].
  cbn [plus_only_leads strip_but_leading_plus].
  unfold keep_only at 1. cbn [list_ascii_of_string List.filter].
  rewrite (orb_comm (is_digit c)).
  destruct (is_plus c || is_digit c) eqn:E.
  - intros Hr. cbn [string_of_list_ascii]. f_equal.
    now apply keep_only_plus_free.
  - intros Hr. now apply IH.
Qed.

(** C6 (as the script has it). On blur the phone field gets the
    normalised form of its value and nothing else of the document
    changes: the value is stripped of every character that is neither
    a digit nor a [+], wherever the [+] stands; then a leading [0]
    is replaced by [+358], a value that starts with [+] is kept, and
    anything else gets [+358] in front.  This is what the specification
    says whenever no [+] comes after the first character kept. *)
Theorem phone_blur_normalises (st : page) :
  let v := value (f_phone (doc st)) in
  let out := normalise_amended v in
  doc (phone_blur st) = set_field Phone (with_value out (f_phone (doc st))) (doc st)
  /\ value (f_phone (doc (phone_blur st))) = out
  /\ (plus_only_leads v = true -> out = normalise_spec v).
Proof.
  cbv zeta. unfold phone_blur, normalise_amended, normalise_spec, to_finnish, keeps.
  rewrite replace_all_but_keep_only.
  set (digits := keep_only _ _).
  split; [|split].
  - destruct (startsWith "0" digits), (startsWith "+" digits);
      destruct st; reflexivity.
  - destruct (startsWith "0" digits), (startsWith "+" digits);
      destruct st as [[] ? ? ? ? ? ? ? ? ? ? ?]; reflexivity.
  - intros Hv. subst digits. now rewrite (strip_agree _ Hv).
Qed.

End PhoneNormaliser.

Section Company.

Context `{Platform}.

Lemma form_input_doc (st : page) : doc (form_input st) = doc st.
Proof. destruct st as [? ? ? ? ? ? ? ? ? ? [] ?]; reflexivity. Qed.

Lemma form_change_doc (st : page) : doc (form_change st) = doc st.
Proof. destruct st as [? ? ? ? ? ? ? ? ? ? ? []]; reflexivity. Qed.

Lemma on_doc_doc (g : dom -> dom) (st : page) : doc (on_doc g st) = g (doc st).
Proof. destruct st; reflexivity. Qed.

Lemma field_input_doc (f : field_id) (st : page) :
  doc (field_input f st) = buildSummary (doc st).
Proof. destruct st; reflexivity. Qed.

Lemma clearBtn_click_doc (st : page) :
  doc (clearBtn_click st)
  = buildSummary
      (set_hidden true
         (fold_left (fun d f => set_errorEl f "" d)
            [Name; Email; Password; Phone; Company] (form_reset (doc st)))).
Proof. destruct st; reflexivity. Qed.

(** The validators leave the section's visibility and the attributes
    of the company field alone while the section is hidden. *)
Lemma buildSummary_hidden_company (d : dom) :
  companySection_hidden d = true ->
  companySection_hidden (buildSummary d) = true
  /\ f_company (buildSummary d) = f_company d
  /\ e_company (buildSummary d) = e_company d.
Proof.
  rewrite buildSummary_verdicts. unfold render.
  destruct (negb _); destruct d as [n e p ph t c h en ee ep eph ec [] sv sh];
    cbn [companySection_hidden]; try discriminate; intros _; repeat split.
Qed.

Lemma buildSummary_keeps_hidden (d : dom) :
  companySection_hidden (buildSummary d) = companySection_hidden d.
Proof.
  rewrite buildSummary_verdicts. unfold render.
  destruct (negb _); destruct d as [n e p ph t c h en ee ep eph ec [] sv sh];
    reflexivity.
Qed.

Lemma toggle_on_then_clear (st : page) :
  companyToggle_checked (doc st) = false ->
  let shown := step UserToggle st in
  let cleared := step ClearClick shown in
  companySection_hidden (doc shown) = false
  /\ required (f_company (doc shown)) = true
  /\ companySection_hidden (doc cleared) = true
  /\ required (f_company (doc cleared)) = true.
Proof.
  intros Hoff. cbv zeta. cbn [step].
  rewrite clearBtn_click_doc.
  rewrite !form_change_doc, !on_doc_doc, !form_input_doc, !on_doc_doc.
  set (d := doc st) in *. clearbody d.
  match goal with |- context [buildSummary ?x] =>
    destruct (buildSummary_hidden_company x) as (Hh & Hc & _) end.
  { match goal with |- context [set_hidden true ?x] => destruct x end.
    reflexivity. }
  rewrite Hh, Hc.
  destruct d as [n e p ph t [] h en ee ep eph ec ch sv sh].
  cbn in Hoff. subst t. repeat split.
Qed.

(** C2, at the input where the script breaks it. From any page: the user
    ticks the company checkbox, which shows the section and makes the
    company field required, and then clicks Clear, which hides the
    section again but leaves the [required] attribute set.  So a state
    with the section hidden and the company field required is
    reachable. *)
Theorem clear_leaves_company_required :
  exists st,
    reachable st
    /\ companySection_hidden (doc st) = true
    /\ required (f_company (doc st)) = true.
Proof.
  set (st0 := page_load ∅).
  destruct (companyToggle_checked (doc st0)) eqn:E.
  - exists (step ClearClick (step UserToggle (step UserToggle st0))).
    split; [repeat constructor|].
    apply (toggle_on_then_clear (step UserToggle st0)).
    cbn [step]. rewrite !form_change_doc, !on_doc_doc, !form_input_doc, !on_doc_doc.
    rewrite E. destruct (doc st0) as [n e p ph t [] h en ee ep eph ec ch sv sh];
      reflexivity.
  - exists (step ClearClick (step UserToggle st0)).
    split; [repeat constructor|].
    now apply (toggle_on_then_clear st0).
Qed.

End Company.

Section Debounce.

Context `{Platform}.

(** [restoreDraft] writes to the document and to the console only. *)
Lemma restoreDraft_frame (st : page) :
  exists d' c', snd (restoreDraft st) = with_console c' (with_doc d' st).
Proof.
  unfold restoreDraft. run_M.
  destruct (getItem STORAGE_KEY st) as [raw|];
    [|destruct st; eexists; eexists; reflexivity].
  destruct (falsy_string raw); [destruct st; eexists; eexists; reflexivity|].
  destruct (JSON_parse raw) as [data|];
    [|destruct st; eexists; eexists; reflexivity].
  destruct data; cbn [get_prop];
    repeat match goal with
           | |- context [ToString ?v] => destruct (ToString v) as [?|?]
           end;
    destruct st; eexists; eexists; reflexivity.
Qed.

(** The contract of [debounce], for a closure that is called again: the
    timer it set before is cleared, and one timer is set. *)
Lemma debounced_again (fn : task) (wait id : nat) (st : page) :
  timers (snd (debounced fn wait (Some id) st))
  = (List.filter (other_timer id) (timers st)
     ++ [{| tid := next_timer st; due := clock st + wait; job := fn |}])%list
  /\ fst (debounced fn wait (Some id) st) = Some (next_timer st).
Proof. destruct st; split; reflexivity. Qed.

(** A closure called for the first time clears nothing. *)
Lemma debounced_first (fn : task) (wait : nat) (st : page) :
  timers (snd (debounced fn wait None st))
  = (timers st
     ++ [{| tid := next_timer st; due := clock st + wait; job := fn |}])%list.
Proof. destruct st; reflexivity. Qed.

(** Every 'input' event of a field sets one more validation timer and
    clears none: the listener calls a closure it has just built. *)
Lemma field_input_timers (f : field_id) (st : page) :
  timers (field_input f st)
  = (timers st
     ++ [{| tid := next_timer st; due := clock st + 150;
            job := RunValidator f |}])%list.
Proof. destruct st; reflexivity. Qed.

(** C3, at the input where the script breaks it. The user types twice
    in the name field, 10 ms apart, on a page just loaded.  The second
    event does not cancel the validation that the first one scheduled:
    both timers are pending, due 150 ms after their own event, and both
    fire, so [validateName] runs twice within one window.  The autosave,
    whose closure is built once, is rescheduled as it should: a single
    [saveDraft] timer is pending, set by the second event. *)
Theorem live_validation_not_debounced (store : gmap string string) (v1 v2 : string) :
  let st := run [UserInput Name v1; Elapsed 10; UserInput Name v2]
              (page_load store) in
  timers st
  = [ {| tid := 1; due := 150; job := RunValidator Name |};
      {| tid := 3; due := 160; job := RunValidator Name |};
      {| tid := 4; due := 310; job := RunSaveDraft |} ]
  /\ fst (elapse 150 st) = [RunValidator Name; RunValidator Name].
Proof.
  cbv zeta. unfold page_load.
  destruct (restoreDraft_frame (fresh_page store)) as (d' & c' & ->).
  unfold fresh_page.
  cbn -[buildSummary validator saveDraft].
  split; reflexivity.
Qed.

End Debounce.

Section CompanyError.

Context `{Platform}.

(** While the company section is hidden, nothing is shown in the
    company field's error slot. *)
Definition no_hidden_error (d : dom) : Prop :=
  companySection_hidden d = true -> e_company d = "".

Lemma validator_no_hidden_error (f : field_id) (d : dom) :
  no_hidden_error d -> no_hidden_error (snd (validator f d)).
Proof.
  unfold no_hidden_error. rewrite validator_verdict.
  destruct (applies f d) eqn:Ha; [|trivial]. cbn [snd]. revert Ha.
  destruct d as [n e p ph t c h en ee ep eph ec [] sv sh], f;
    cbn [applies companySection_hidden negb]; try discriminate;
    intros _ Hd Hh; try discriminate; exact (Hd Hh).
Qed.

Lemma buildSummary_no_hidden_error (d : dom) :
  no_hidden_error d -> no_hidden_error (buildSummary d).
Proof.
  unfold no_hidden_error. rewrite buildSummary_keeps_hidden. intros Hd Hh.
  destruct (buildSummary_hidden_company d Hh) as (_ & _ & ->). now apply Hd.
Qed.

Lemma submit_settled_doc (payload : jsval number) (o : fetch_outcome) (st : page) :
  doc (snd (submit_settled payload o st)) = doc st.
Proof.
  unfold submit_settled. run_M.
  destruct o as [e|r]; [destruct st; reflexivity|].
  destruct (response_json r) as [data|e]; [|destruct st; reflexivity].
  destruct (get_prop data "id") as [id|e]; [|destruct st; reflexivity].
  destruct (ToString id) as [shown|e]; destruct st; reflexivity.
Qed.

Lemma run_task_no_hidden_error (fn : task) (st : page) :
  no_hidden_error (doc st) -> no_hidden_error (doc (run_task fn st)).
Proof.
  destruct fn as [f|]; cbn [run_task].
  - rewrite on_doc_doc. apply validator_no_hidden_error.
  - destruct st; trivial.
Qed.

Lemma run_timers_no_hidden_error (fuel until : nat) (st : page) :
  no_hidden_error (doc st) ->
  no_hidden_error (doc (snd (run_timers fuel until st))).
Proof.
  revert st. induction fuel as [|fuel IH]; intros st Hs; cbn [run_timers];
    [exact Hs|].
  destruct (next_due (timers st)) as [t|]; [|exact Hs].
  destruct (Nat.leb (due t) until); [|exact Hs].
  match goal with
  | |- context [run_timers fuel until ?s] =>
      specialize (IH s); destruct (run_timers fuel until s) as [ran st']
  end.
  cbn [snd] in *. apply IH. apply run_task_no_hidden_error.
  destruct st; exact Hs.
Qed.

Lemma restoreDraft_e_company (st : page) :
  e_company (doc (snd (restoreDraft st))) = e_company (doc st).
Proof.
  unfold restoreDraft. run_M.
  destruct (getItem STORAGE_KEY st) as [raw|]; [|reflexivity].
  destruct (falsy_string raw); [reflexivity|].
  destruct (JSON_parse raw) as [data|]; [|destruct st; reflexivity].
  destruct data; cbn [get_prop];
    repeat match goal with
           | |- context [ToString ?v] => destruct (ToString v) as [?|?]
           end;
    destruct st as [[] ? ? ? ? ? ? ? ? ? ? ?]; reflexivity.
Qed.

Lemma step_no_hidden_error (e : event) (st : page) :
  no_hidden_error (doc st) -> no_hidden_error (doc (step e st)).
Proof.
  intros Hs. destruct e as [f v|f| | | |time|i o|dt]; cbn [step].
  - rewrite form_input_doc.
    assert (Hv : no_hidden_error
                   (doc (on_doc (fun d => set_field f (typed_value v (field f d)) d) st))).
    { rewrite on_doc_doc. destruct (doc st), f; exact Hs. }
    destruct f; try (rewrite field_input_doc; now apply buildSummary_no_hidden_error).
    exact Hv.
  - now rewrite form_change_doc.
  - rewrite form_change_doc, on_doc_doc, form_input_doc, on_doc_doc.
    destruct (doc st) as [n e p ph [] c h en ee ep eph ec ch sv sh];
      intros Hh; try discriminate Hh; reflexivity.
  - unfold phone_blur. cbn zeta.
    match goal with |- context [set_field Phone ?el] => generalize el end.
    intros el. destruct st as [[] ? ? ? ? ? ? ? ? ? ? ?]. exact Hs.
  - rewrite clearBtn_click_doc. apply buildSummary_no_hidden_error.
    intros _. destruct (form_reset (doc st)); reflexivity.
  - rewrite form_submit_doc. now apply buildSummary_no_hidden_error.
  - destruct (awaiting st !! i); [|exact Hs].
    rewrite submit_settled_doc. destruct st; exact Hs.
  - unfold elapse.
    pose proof (run_timers_no_hidden_error (length (timers st)) (clock st + dt) st Hs)
      as Hr.
    destruct (run_timers _ _ st) as [ran st']. cbn [snd] in *.
    destruct st'; exact Hr.
Qed.

(** The half of the company invariant that holds: on every reachable
    page, while the company section is hidden the company field's error
    slot is empty, provided the markup starts it empty. *)
Theorem hidden_company_shows_no_error (st : page) :
  e_company markup = "" ->
  reachable st ->
  companySection_hidden (doc st) = true ->
  e_company (doc st) = "".
Proof.
  intros Hm Hr. induction Hr as [store|e st Hr IH].
  - intros _. unfold page_load. now rewrite restoreDraft_e_company.
  - now apply step_no_hidden_error.
Qed.

End CompanyError.

Section SubmissionPaths.

Context `{Platform}.

(** The validators write verdicts; they never touch a value, the
    checkbox or the [required] attributes. *)
Lemma buildSummary_inputs (d : dom) (f : field_id) :
  value (field f (buildSummary d)) = value (field f d)
  /\ required (field f (buildSummary d)) = required (field f d)
  /\ user_edited (field f (buildSummary d)) = user_edited (field f d)
  /\ companyToggle_checked (buildSummary d) = companyToggle_checked d.
Proof.
  rewrite buildSummary_verdicts. unfold render.
  destruct (negb _);
    destruct d as [n e p ph t c h en ee ep eph ec [] sv sh], f;
    repeat split.
Qed.

(** A validator's answer and verdict are read off the value, the
    [required] attribute and the edit flag of its own field, and off
    the visibility of the company section; no other state matters. *)
Theorem validator_reads_its_field (f : field_id) (d1 d2 : dom) :
  value (field f d1) = value (field f d2) ->
  required (field f d1) = required (field f d2) ->
  user_edited (field f d1) = user_edited (field f d2) ->
  companySection_hidden d1 = companySection_hidden d2 ->
  fst (validator f d1) = fst (validator f d2)
  /\ (applies f d1 = true ->
      field f (snd (validator f d1)) = field f (snd (validator f d2))
      /\ errorEl f (snd (validator f d1)) = errorEl f (snd (validator f d2))).
Proof.
  intros Hv Hr He Hh. rewrite !validator_verdict.
  assert (Ha : applies f d2 = applies f d1).
  { destruct f; cbn [applies]; congruence. }
  rewrite Ha.
  destruct (applies f d1) eqn:E; cbn [fst snd];
    [|split; [reflexivity|discriminate]].
  assert (Hs : settle f (field f d1) = settle f (field f d2)).
  { destruct (field f d1), (field f d2). cbn in Hv, Hr, He. subst.
    destruct f; try reflexivity. discriminate E. }
  rewrite Hs. split; [reflexivity|]. intros _.
  destruct d1, d2, f; cbn [applies] in E; try discriminate;
    cbn [field f_name f_email f_password f_phone f_company] in Hs;
    dom_simpl; now rewrite Hs.
Qed.

(** The value of the [&&] chain when every validator answers true. *)
Lemma validity_check_true (d : dom) :
  fst (validateName d) && fst (validateEmail d) && fst (validatePassword d)
  && fst (validatePhone d) && fst (validateCompany d) = true ->
  fst (validity_check d) = true.
Proof. intros Hc. now rewrite validity_check_conjunction. Qed.

(** With every validator answering true the listener goes on to the bot
    trap and the request. *)
Lemma form_submit_valid (time : string) (st : page) :
  fst (validateName (doc st)) && fst (validateEmail (doc st))
  && fst (validatePassword (doc st)) && fst (validatePhone (doc st))
  && fst (validateCompany (doc st)) = true ->
  form_submit time st =
   let d := buildSummary (doc st) in
   let st := with_doc d st in
      if negb (falsy_string (value (f_hp d)))
      then alert "Submission blocked due to bot detection." st
      else
        let payload : jsval number :=
          JObj [("name", JStr (value (f_name d)));
                ("email", JStr (value (f_email d)));
                ("phone", JStr (value (f_phone d)));
                ("company", JStr (if companyToggle_checked d
                                  then value (f_company d) else ""));
                ("time", JStr time)] in
        let req :=
          {| url := ENDPOINT; method := "POST";
             headers := [("Content-Type", "application/json")];
             body := JSON_stringify payload |} in
        with_awaiting (awaiting st ++ [payload])
          (with_fetched (fetched st ++ [req]) st).
Proof.
  intros Hc. unfold form_submit.
  pose proof (validity_check_true _ Hc) as Hv.
  pose proof (buildSummary_validity_check (doc st)) as Hb.
  destruct (validity_check (doc st)) as [ok d]. cbn [fst snd] in Hv, Hb.
  subst ok. rewrite Hb. cbn [negb]. reflexivity.
Qed.

(** Rebuilding the summary leaves what the payload is read from as it
    was. *)
Lemma buildSummary_payload (d : dom) :
  value (f_name (buildSummary d)) = value (f_name d)
  /\ value (f_email (buildSummary d)) = value (f_email d)
  /\ value (f_phone (buildSummary d)) = value (f_phone d)
  /\ value (f_company (buildSummary d)) = value (f_company d)
  /\ value (f_hp (buildSummary d)) = value (f_hp d)
  /\ companyToggle_checked (buildSummary d) = companyToggle_checked d.
Proof.
  rewrite buildSummary_verdicts. unfold render.
  destruct (negb _);
    destruct d as [n e p ph t c h en ee ep eph ec [] sv sh];
    repeat split.
Qed.

(** The bot trap: a valid form whose hidden field is filled is not
    sent; the user gets the blocking notice. *)
Theorem bot_trap_blocks_submission (time : string) (st : page) :
  fst (validateName (doc st)) && fst (validateEmail (doc st))
  && fst (validatePassword (doc st)) && fst (validatePhone (doc st))
  && fst (validateCompany (doc st)) = true ->
  value (f_hp (doc st)) <> "" ->
  form_submit time st
  = alert "Submission blocked due to bot detection." (on_doc buildSummary st)
  /\ fetched (form_submit time st) = fetched st.
Proof.
  intros Hc Hhp. rewrite (form_submit_valid _ _ Hc). cbv zeta.
  destruct (buildSummary_payload (doc st)) as (_ & _ & _ & _ & Hval & _).
  rewrite Hval.
  destruct (falsy_string (value (f_hp (doc st)))) eqn:Ef.
  { apply falsy_string_spec in Ef. contradiction. }
  cbn [negb]. split; [reflexivity|]. destruct st; reflexivity.
Qed.

(** A valid form with the trap empty is sent: one POST request to the
    endpoint, its body the JSON text of name, e-mail, phone, company
    and time, the company empty unless the checkbox is checked. *)
Theorem valid_form_is_sent (time : string) (st : page) :
  fst (validateName (doc st)) && fst (validateEmail (doc st))
  && fst (validatePassword (doc st)) && fst (validatePhone (doc st))
  && fst (validateCompany (doc st)) = true ->
  value (f_hp (doc st)) = "" ->
  let d := doc st in
  let payload : jsval number :=
    JObj [("name", JStr (value (f_name d)));
          ("email", JStr (value (f_email d)));
          ("phone", JStr (value (f_phone d)));
          ("company", JStr (if companyToggle_checked d
                            then value (f_company d) else ""));
          ("time", JStr time)] in
  fetched (form_submit time st)
  = (fetched st
     ++ [{| url := ENDPOINT; method := "POST";
            headers := [("Content-Type", "application/json")];
            body := JSON_stringify payload |}])%list
  /\ awaiting (form_submit time st) = (awaiting st ++ [payload])%list
  /\ alerts (form_submit time st) = alerts st.
Proof.
  intros Hc Hhp. rewrite (form_submit_valid _ _ Hc). cbv zeta.
  destruct (buildSummary_payload (doc st)) as (Hn & He & Hph & Hco & Hval & Ht).
  rewrite Hval, Hn, He, Hph, Hco, Ht, Hhp.
  change (falsy_string "") with true. cbn [negb].
  destruct st; repeat split.
Qed.

End SubmissionPaths.

Section Scheduler.

Context `{Platform}.

(** *** Firing timers: the fuel is enough *)

Lemma run_task_sched (fn : task) (st : page) :
  timers (run_task fn st) = timers st
  /\ next_timer (run_task fn st) = next_timer st
  /\ save_on_input (run_task fn st) = save_on_input st
  /\ save_on_change (run_task fn st) = save_on_change st
  /\ clock (run_task fn st) = clock st.
Proof. destruct fn, st; repeat split. Qed.

Lemma next_due_none (l : list timer) : next_due l = None -> l = [].
Proof.
  destruct l as [|t r]; [reflexivity|]. cbn [next_due].
  destruct (next_due r) as [u|]; [destruct (Nat.ltb _ _)|]; discriminate.
Qed.

Lemma next_due_earliest (l : list timer) (t : timer) :
  next_due l = Some t -> In t l /\ forall u, In u l -> due t <= due u.
Proof.
  revert t. induction l as [|a r IH]; intros t; cbn [next_due];
    [discriminate|].
  destruct (next_due r) as [u|] eqn:E.
  - destruct (IH u eq_refl) as [Hin Hmin].
    destruct (Nat.ltb (due u) (due a)) eqn:Hlt; intros [= <-].
    + apply Nat.ltb_lt in Hlt. split; [now right|].
      intros w [<-|Hw]; [lia|now apply Hmin].
    + apply Nat.ltb_ge in Hlt. split; [now left|].
      intros w [<-|Hw]; [lia|]. specialize (Hmin w Hw). lia.
  - intros [= <-]. apply next_due_none in E. subst r.
    split; [now left|]. intros w [<-|[]]. lia.
Qed.

Lemma cleared_is_shorter (t : timer) (l : list timer) :
  In t l -> length (List.filter (other_timer (tid t)) l) < length l.
Proof.
  induction l as [|a r IH]; [intros []|]. cbn [List.filter length].
  intros [->|Hin].
  - unfold other_timer at 1. rewrite Nat.eqb_refl. cbn [negb].
    pose proof (List.filter_length_le (other_timer (tid t)) r). lia.
  - specialize (IH Hin). destruct (other_timer (tid t) a); cbn [length]; lia.
Qed.

Lemma run_timers_drains (fuel until : nat) (st : page) :
  length (timers st) <= fuel ->
  forall t, In t (timers (snd (run_timers fuel until st))) -> until < due t.
Proof.
  revert st. induction fuel as [|fuel IH]; intros st Hlen; cbn [run_timers].
  - cbn [snd]. destruct (timers st); [intros t []|cbn in Hlen; lia].
  - destruct (next_due (timers st)) as [t|] eqn:E.
    + destruct (next_due_earliest _ _ E) as [Hin Hmin].
      destruct (Nat.leb (due t) until) eqn:Hdue.
      * match goal with
        | |- context [run_timers fuel until ?s] =>
            specialize (IH s);
            assert (Hs : timers s = List.filter (other_timer (tid t)) (timers st))
              by (rewrite (proj1 (run_task_sched _ _)); destruct st; reflexivity);
            destruct (run_timers fuel until s) as [ran st']
        end.
        cbn [snd] in *. apply IH. rewrite Hs.
        pose proof (cleared_is_shorter t (timers st) Hin). lia.
      * apply Nat.leb_gt in Hdue. cbn [snd]. intros u Hu.
        specialize (Hmin u Hu). lia.
    + apply next_due_none in E. cbn [snd]. rewrite E. intros t [].
Qed.

(** When [dt] milliseconds have passed, every timer that was due has
    fired: what is still pending is due later. *)
Theorem elapse_fires_all_due (dt : nat) (st : page) :
  clock (snd (elapse dt st)) = clock st + dt
  /\ forall t, In t (timers (snd (elapse dt st))) -> clock st + dt < due t.
Proof.
  unfold elapse.
  pose proof (run_timers_drains (length (timers st)) (clock st + dt) st
                (Nat.le_refl _)) as Hd.
  destruct (run_timers _ _ st) as [ran st']. cbn [snd] in *.
  destruct st'; split; [reflexivity|exact Hd].
Qed.

(** *** The autosave closures *)

Lemma cleared_NoDup (id : nat) (l : list timer) :
  NoDup (map tid l) -> NoDup (map tid (List.filter (other_timer id) l)).
Proof.
  induction l as [|a r IH]; cbn [map List.filter]; [trivial|].
  rewrite NoDup_cons. intros [Ha Hr].
  destruct (other_timer id a); [|now apply IH].
  cbn [map]. apply NoDup_cons. split; [|now apply IH].
  rewrite list_elem_of_In in *. rewrite in_map_iff in *.
  intros (x & Hx & Hin). apply Ha. exists x. split; [exact Hx|].
  apply List.filter_In in Hin. tauto.
Qed.

Lemma sched_ok_thinned (st st' : page) :
  (forall t, In t (timers st') -> In t (timers st)) ->
  (NoDup (map tid (timers st)) -> NoDup (map tid (timers st'))) ->
  next_timer st' = next_timer st ->
  save_on_input st' = save_on_input st ->
  save_on_change st' = save_on_change st ->
  sched_ok st -> sched_ok st'.
Proof.
  intros Hin Hnd Hn Hi Hc (Hd & Hb & Hs). unfold sched_ok.
  rewrite Hn, Hi, Hc. split; [now apply Hnd|]. split.
  - intros t Ht. apply Hb, Hin, Ht.
  - intros t Ht. apply Hs, Hin, Ht.
Qed.

Lemma sched_ok_same (st st' : page) :
  timers st' = timers st ->
  next_timer st' = next_timer st ->
  save_on_input st' = save_on_input st ->
  save_on_change st' = save_on_change st ->
  sched_ok st -> sched_ok st'.
Proof.
  intros Ht. apply sched_ok_thinned; rewrite Ht; trivial.
Qed.

Lemma run_timers_thins (fuel until : nat) (st : page) :
  let st' := snd (run_timers fuel until st) in
  (forall t, In t (timers st') -> In t (timers st))
  /\ (NoDup (map tid (timers st)) -> NoDup (map tid (timers st')))
  /\ next_timer st' = next_timer st
  /\ save_on_input st' = save_on_input st
  /\ save_on_change st' = save_on_change st.
Proof.
  cbv zeta. revert st. induction fuel as [|fuel IH]; intros st;
    cbn [run_timers]; [repeat split; trivial|].
  destruct (next_due (timers st)) as [t|]; [|repeat split; trivial].
  destruct (Nat.leb (due t) until); [|repeat split; trivial].
  match goal with
  | |- context [run_timers fuel until (run_task ?j ?s0)] =>
      specialize (IH (run_task j s0));
      destruct (run_task_sched j s0) as (Ht & Hn & Hi & Hc & _);
      destruct (run_timers fuel until (run_task j s0)) as [ran st']
  end.
  cbn [snd] in *. destruct IH as (Hin' & Hnd' & Hn' & Hi' & Hc').
  rewrite Ht in Hin', Hnd'. rewrite Hn', Hi', Hc', Hn, Hi, Hc.
  destruct st; cbn in *. repeat split.
  - intros u Hu. apply Hin' in Hu. apply List.filter_In in Hu. tauto.
  - intros Hd. apply Hnd'. now apply cleared_NoDup.
Qed.

Lemma sched_ok_set (fn : task) (wait : nat) (st : page) :
  fn <> RunSaveDraft ->
  sched_ok st -> sched_ok (snd (setTimeout fn wait st)).
Proof.
  intros Hfn (Hd & Hb & Hs). unfold sched_ok.
  destruct st as [d ls co al fo fe aw cl ti nt si sc]; cbn in *.
  rewrite map_app. cbn [map]. split; [|split].
  - apply NoDup_app. split; [exact Hd|]. split; [|apply NoDup_singleton].
    intros x Hx Hx'. apply list_elem_of_singleton in Hx'. subst x.
    rewrite list_elem_of_In, in_map_iff in Hx. destruct Hx as (t & Ht & Hin).
    cbn [tid] in Ht. specialize (Hb t Hin). lia.
  - intros t Ht. apply in_app_iff in Ht. destruct Ht as [Ht|[<-|[]]]; cbn.
    + specialize (Hb t Ht). lia.
    + lia.
  - intros t Ht. apply in_app_iff in Ht. destruct Ht as [Ht|[<-|[]]]; cbn.
    + now apply Hs.
    + intros Hj. congruence.
Qed.

(** One call of an autosave closure: the timer in its variable is
    cleared and the new one takes its place. *)
Lemma sched_ok_autosave (timeout : option nat) (st : page) (mine : page -> option nat)
    (other : page -> option nat) (store : option nat -> page -> page) :
  timeout = mine st ->
  (forall t s, timers (store t s) = timers s
               /\ next_timer (store t s) = next_timer s
               /\ mine (store t s) = t
               /\ other (store t s) = other s) ->
  (forall s, sched_ok s <->
     NoDup (map tid (timers s))
     /\ (forall t, In t (timers s) -> tid t < next_timer s)
     /\ (forall t, In t (timers s) -> job t = RunSaveDraft ->
           Some (tid t) = mine s \/ Some (tid t) = other s)) ->
  (forall fn w t s, mine (snd (debounced fn w t s)) = mine s
                    /\ other (snd (debounced fn w t s)) = other s) ->
  sched_ok st ->
  sched_ok (store (fst (debounced RunSaveDraft 300 timeout st))
              (snd (debounced RunSaveDraft 300 timeout st))).
Proof.
  intros Hmine Hstore Hok Hframe Hst.
  apply Hok in Hst. destruct Hst as (Hd & Hb & Hs). apply Hok.
  destruct (Hstore (fst (debounced RunSaveDraft 300 timeout st))
              (snd (debounced RunSaveDraft 300 timeout st)))
    as (-> & -> & -> & ->).
  destruct (Hframe RunSaveDraft 300 timeout st) as (_ & ->).
  assert (Ht : timers (snd (debounced RunSaveDraft 300 timeout st))
               = (match timeout with
                  | Some id => List.filter (other_timer id) (timers st)
                  | None => timers st
                  end
                  ++ [{| tid := next_timer st; due := clock st + 300;
                         job := RunSaveDraft |}])%list)
    by (destruct st, timeout; reflexivity).
  assert (Hn : next_timer (snd (debounced RunSaveDraft 300 timeout st))
               = S (next_timer st)) by (destruct st, timeout; reflexivity).
  assert (Hf : fst (debounced RunSaveDraft 300 timeout st) = Some (next_timer st))
    by (destruct st, timeout; reflexivity).
  rewrite Ht, Hn, Hf. clear Ht Hn Hf.
  set (kept := match timeout with
               | Some id => List.filter (other_timer id) (timers st)
               | None => timers st
               end).
  assert (Hkept : forall t, In t kept ->
                    In t (timers st) /\ Some (tid t) <> timeout).
  { intros t Ht. subst kept. destruct timeout as [id|]; [|split; [exact Ht|discriminate]].
    apply List.filter_In in Ht. destruct Ht as [Hin Ho]. split; [exact Hin|].
    unfold other_timer in Ho. apply negb_true_iff, Nat.eqb_neq in Ho. congruence. }
  assert (Hkd : NoDup (map tid kept)).
  { subst kept. destruct timeout; [now apply cleared_NoDup|exact Hd]. }
  rewrite map_app. cbn [map]. split; [|split].
  - apply NoDup_app. split; [exact Hkd|]. split; [|apply NoDup_singleton].
    intros x Hx Hx'. apply list_elem_of_singleton in Hx'. subst x.
    rewrite list_elem_of_In, in_map_iff in Hx. destruct Hx as (t & Ht & Hin).
    cbn [tid] in Ht. apply Hkept in Hin. destruct Hin as [Hin _].
    specialize (Hb t Hin). lia.
  - intros t Ht. apply in_app_iff in Ht. destruct Ht as [Ht|[<-|[]]]; cbn.
    + apply Hkept in Ht. destruct Ht as [Ht _]. specialize (Hb t Ht). lia.
    + lia.
  - intros t Ht. apply in_app_iff in Ht. destruct Ht as [Ht|[<-|[]]]; cbn.
    + intros Hj. apply Hkept in Ht. destruct Ht as [Ht Hne].
      destruct (Hs t Ht Hj) as [Hm|Ho]; [|now right]. congruence.
    + intros _. now left.
Qed.

Lemma form_input_sched_ok (st : page) : sched_ok st -> sched_ok (form_input st).
Proof.
  intros Hst. unfold form_input.
  pose proof (sched_ok_autosave (save_on_input st) st save_on_input save_on_change
                with_save_on_input eq_refl) as Ha.
  destruct (debounced RunSaveDraft 300 (save_on_input st) st) as [t st'].
  apply Ha; [| | |exact Hst].
  - intros t0 s. destruct s; repeat split.
  - intros s. reflexivity.
  - intros fn w t0 s. destruct s, t0; split; reflexivity.
Qed.

Lemma form_change_sched_ok (st : page) : sched_ok st -> sched_ok (form_change st).
Proof.
  intros Hst. unfold form_change.
  pose proof (sched_ok_autosave (save_on_change st) st save_on_change save_on_input
                with_save_on_change eq_refl) as Ha.
  destruct (debounced RunSaveDraft 300 (save_on_change st) st) as [t st'].
  apply Ha; [| | |exact Hst].
  - intros t0 s. destruct s; repeat split.
  - intros s. unfold sched_ok. split.
    + intros (Hd & Hb & Hs). repeat split; trivial.
      intros u Hu Hj. destruct (Hs u Hu Hj); tauto.
    + intros (Hd & Hb & Hs). repeat split; trivial.
      intros u Hu Hj. destruct (Hs u Hu Hj); tauto.
  - intros fn w t0 s. destruct s, t0; split; reflexivity.
Qed.

Lemma on_doc_sched_ok (g : dom -> dom) (st : page) :
  sched_ok st -> sched_ok (on_doc g st).
Proof. apply sched_ok_same; destruct st; reflexivity. Qed.

Lemma field_input_sched_ok (f : field_id) (st : page) :
  sched_ok st -> sched_ok (field_input f st).
Proof.
  intros Hst. unfold field_input, debounced. cbn [clearTimeout].
  pose proof (sched_ok_set (RunValidator f) 150 st) as Hset.
  destruct (setTimeout (RunValidator f) 150 st) as [id st'].
  apply on_doc_sched_ok. apply Hset; [discriminate|exact Hst].
Qed.

Lemma step_sched_ok (e : event) (st : page) : sched_ok st -> sched_ok (step e st).
Proof.
  intros Hst. destruct e as [f v|f| | | |time|i o|dt]; cbn [step].
  - apply form_input_sched_ok.
    destruct f; try apply field_input_sched_ok; now apply on_doc_sched_ok.
  - now apply form_change_sched_ok.
  - apply form_change_sched_ok, on_doc_sched_ok, form_input_sched_ok.
    now apply on_doc_sched_ok.
  - revert Hst. apply sched_ok_same; destruct st; reflexivity.
  - revert Hst. apply sched_ok_same; destruct st; reflexivity.
  - revert Hst. apply sched_ok_same; unfold form_submit;
      destruct (validity_check (doc st)) as [ok d];
      destruct (negb ok), (querySelector_invalid (buildSummary d));
      try (destruct st; reflexivity);
      destruct (negb (falsy_string _)); destruct st; reflexivity.
  - destruct (awaiting st !! i) as [payload|]; [|exact Hst].
    revert Hst. apply sched_ok_same; unfold submit_settled; run_M;
      (destruct o as [e|r]; [destruct st; reflexivity|]);
      (destruct (response_json r) as [data|e]; [|destruct st; reflexivity]);
      (destruct (get_prop data "id") as [id|e]; [|destruct st; reflexivity]);
      destruct (ToString id) as [shown|e]; destruct st; reflexivity.
  - unfold elapse.
    pose proof (run_timers_thins (length (timers st)) (clock st + dt) st) as Hr.
    destruct (run_timers _ _ st) as [ran st']. cbn [snd] in *.
    destruct Hr as (Hin & Hnd & Hn & Hi & Hc).
    revert Hst. apply sched_ok_thinned; destruct st'; assumption.
Qed.

Lemma reachable_sched_ok (st : page) : reachable st -> sched_ok st.
Proof.
  intros Hr. induction Hr as [store|e st Hr IH].
  - unfold page_load.
    destruct (restoreDraft_frame (fresh_page store)) as (d' & c' & ->).
    unfold sched_ok, fresh_page. cbn.
    split; [apply NoDup_nil_2|]. split; intros t [].
  - now apply step_sched_ok.
Qed.

(** The contract of [debounce] as the autosave uses it: on every
    reachable page the pending timers have distinct identifiers, and
    each of the two autosave closures has at most one [saveDraft]
    pending, the one its [timeout] variable names; whatever it had
    scheduled before has been cleared. *)
Theorem autosave_is_debounced (st : page) :
  reachable st ->
  NoDup (map tid (timers st))
  /\ (forall t, In t (timers st) -> tid t < next_timer st)
  /\ (forall t, In t (timers st) -> job t = RunSaveDraft ->
        Some (tid t) = save_on_input st \/ Some (tid t) = save_on_change st).
Proof.
  intros Hr. destruct (reachable_sched_ok st Hr) as (Hd & Hb & Hs).
  split; [exact Hd|]. split; [exact Hb|exact Hs].
Qed.

End Scheduler.

(** ** The summary region *)

Section Summary.

Context `{Platform}.

(** A field has a line in the summary exactly when its validator
    answers false. *)
Lemma problem_line (f : field_id) (d : dom) :
  f <> Hp ->
  applies f (verdicts d) && negb (checkValidity f (field f (verdicts d)))
  = negb (fst (validator f d)).
Proof.
  intros Hf. rewrite validator_verdict.
  destruct d as [n e p ph t c h en ee ep eph ec [] sv sh], f;
    try congruence; dom_simpl; cbn [andb]; reflexivity.
Qed.

(** The summary region is hidden, and empty, exactly when every
    validator answers true; otherwise it is shown and lists, under its
    heading, one line per failing field in the order of the script. *)
Theorem summary_shown_iff_invalid (d : dom) :
  let d' := buildSummary d in
  let valid := forallb (fun f => fst (validator f d)) validated in
  summary_visually_hidden d' = valid
  /\ summary_innerHTML d'
     = (if valid then ""
        else "Please fix the following:<br>" +:+ join "<br>" (problems_of d'))
  /\ length (problems_of d')
     = length (List.filter (fun f => negb (fst (validator f d))) validated).
Proof.
  cbv zeta. rewrite buildSummary_verdicts, problems_of_render.
  unfold problems_of, validated. cbn [flat_map forallb List.filter].
  rewrite !problem_line by discriminate.
  unfold render.
  destruct (fst (validator Name d)), (fst (validator Email d)),
    (fst (validator Password d)), (fst (validator Phone d)),
    (fst (validator Company d));
    cbn [negb app length Nat.eqb andb];
    destruct (verdicts d); repeat split.
Qed.

End Summary.

(** ** Restoring, whatever the store holds *)

Section Restore.

Context `{Platform}.



End Restore.

(** ** Clear and the company checkbox *)

Section ClearAndToggle.

Context `{Platform}.

Lemma buildSummary_values (d : dom) (f : field_id) :
  value (field f (buildSummary d)) = value (field f d).
Proof.
  rewrite buildSummary_verdicts. unfold render.
  destruct (negb _);
    destruct d as [n e p ph t c h en ee ep eph ec [] sv sh], f; reflexivity.
Qed.

Lemma buildSummary_checked (d : dom) :
  companyToggle_checked (buildSummary d) = companyToggle_checked d.
Proof.
  rewrite buildSummary_verdicts. unfold render.
  destruct (negb _);
    destruct d as [n e p ph t c h en ee ep eph ec [] sv sh]; reflexivity.
Qed.

(** The click on Clear: every control is back at what the markup gives
    it, the draft is gone, the company section is hidden and its error
    slot empty.  The error slots of the other four fields are not left
    empty: the summary is rebuilt last, and the validators it runs write
    the messages of the reset values into them.  No timer is cancelled,
    so an autosave that was pending still fires. *)
Theorem clear_resets_and_revalidates (st : page) :
  let st' := clearBtn_click st in
  getItem STORAGE_KEY st' = None
  /\ (forall f, value (field f (doc st')) = value (field f markup))
  /\ companyToggle_checked (doc st') = companyToggle_checked markup
  /\ companySection_hidden (doc st') = true
  /\ e_company (doc st') = ""
  /\ (forall f, In f [Name; Email; Password; Phone] ->
        error_state_current f (doc st'))
  /\ console st' = (console st ++ [ConsoleLog "Form Cleared" LNothing])%list
  /\ timers st' = timers st
  /\ alerts st' = alerts st.
Proof.
  cbv zeta. split; [apply clearBtn_click_removes|].
  rewrite clearBtn_click_doc.
  set (d0 := set_hidden true _).
  assert (Hh : companySection_hidden d0 = true)
    by (subst d0; destruct (form_reset (doc st)); reflexivity).
  destruct (buildSummary_hidden_company d0 Hh) as (Hh' & _ & He).
  split; [|split; [|split; [exact Hh'|split; [|split; [|split; [|split]]]]]].
  - intros f. rewrite buildSummary_values. subst d0.
    destruct (doc st), f; reflexivity.
  - rewrite buildSummary_checked. subst d0. destruct (doc st); reflexivity.
  - rewrite He. subst d0. destruct (form_reset (doc st)); reflexivity.
  - intros f Hf. apply buildSummary_current.
    destruct Hf as [<-|[<-|[<-|[<-|[]]]]]; reflexivity.
  - destruct st; reflexivity.
  - destruct st; reflexivity.
  - destruct st; reflexivity.
Qed.

(** The click on the company checkbox: the section is shown exactly
    when the box is now checked, the company field is required exactly
    then, and when the section has just been hidden its error slot is
    empty.  No value changes. *)
Theorem toggle_shows_and_requires (st : page) :
  let st' := step UserToggle st in
  companyToggle_checked (doc st') = negb (companyToggle_checked (doc st))
  /\ companySection_hidden (doc st') = negb (companyToggle_checked (doc st'))
  /\ required (f_company (doc st')) = companyToggle_checked (doc st')
  /\ (companySection_hidden (doc st') = true -> e_company (doc st') = "")
  /\ (forall f, value (field f (doc st')) = value (field f (doc st))).
Proof.
  cbv zeta. cbn [step].
  rewrite form_change_doc, on_doc_doc, form_input_doc, on_doc_doc.
  destruct (doc st) as [n e p ph [] c h en ee ep eph ec ch sv sh];
    repeat split; try discriminate; intros f; destruct f; reflexivity.
Qed.

End ClearAndToggle.

(** ** Normalising twice *)

Section PhoneTwice.

Context `{Platform}.

Lemma replace_all_but_all_kept (s : string) :
  all_kept (replace_all_but keeps s) = true.
Proof.
  unfold all_kept. induction s as [|c r IH]; [reflexivity|].
  cbn [replace_all_but]. destruct (keeps c) eqn:E.
  - cbn [list_ascii_of_string forallb]. now rewrite E, IH.
  - exact IH.
Qed.

Lemma replace_all_but_fixed (s : string) :
  all_kept s = true -> replace_all_but keeps s = s.
Proof.
  unfold all_kept. induction s as [|c r IH]; [reflexivity|].
  cbn [list_ascii_of_string forallb replace_all_but].
  rewrite andb_true_iff. intros [Hc Hr]. rewrite Hc. now rewrite IH.
Qed.

Lemma all_kept_slice1 (s : string) : all_kept s = true -> all_kept (slice1 s) = true.
Proof.
  destruct s as [|c r]; [reflexivity|]. unfold all_kept.
  cbn [slice1 list_ascii_of_string forallb]. rewrite andb_true_iff. tauto.
Qed.

(** What the normaliser writes is in normal form: digits and [+] only,
    with a [+] in front. *)
Lemma to_finnish_normal (digits : string) :
  all_kept digits = true ->
  all_kept (to_finnish digits) = true
  /\ startsWith "+" (to_finnish digits) = true.
Proof.
  intros Hk. unfold to_finnish.
  destruct (startsWith "0" digits) eqn:E0.
  - split; [|reflexivity].
    change (all_kept (String "+" (String "3" (String "5" (String "8" (slice1 digits)))))
            = true).
    unfold all_kept. cbn [list_ascii_of_string forallb].
    apply all_kept_slice1 in Hk. unfold all_kept in Hk. now rewrite Hk.
  - destruct (startsWith "+" digits) eqn:E1; [split; assumption|].
    split; [|reflexivity].
    change (all_kept (String "+" (String "3" (String "5" (String "8" digits))))
            = true).
    unfold all_kept in *. cbn [list_ascii_of_string forallb]. now rewrite Hk.
Qed.

Lemma to_finnish_fixed (s : string) :
  startsWith "+" s = true -> to_finnish s = s.
Proof.
  intros Hs. unfold to_finnish. rewrite Hs.
  destruct s as [|c r]; [discriminate|].
  unfold startsWith in *. cbn [String.prefix] in *.
  destruct (ascii_dec "+" c) as [<-|]; [reflexivity|discriminate].
Qed.

(** The normaliser always leaves a value with a [+] in front and nothing
    but digits and [+] in it, an empty field included, which becomes
    [+358]; normalising such a value again changes nothing. *)
Theorem phone_blur_idempotent (st : page) :
  let once := value (f_phone (doc (phone_blur st))) in
  let twice := value (f_phone (doc (phone_blur (phone_blur st)))) in
  startsWith "+" once = true
  /\ all_kept once = true
  /\ twice = once
  /\ (value (f_phone (doc st)) = "" -> once = "+358").
Proof.
  cbv zeta.
  assert (Hv : forall s, value (f_phone (doc (phone_blur s)))
                         = to_finnish (replace_all_but keeps (value (f_phone (doc s))))).
  { intros s. unfold phone_blur, to_finnish. cbv zeta.
    set (digits := replace_all_but keeps (value (f_phone (doc s)))).
    destruct (startsWith "0" digits), (startsWith "+" digits);
      destruct s as [[] ? ? ? ? ? ? ? ? ? ? ?]; reflexivity. }
  rewrite (Hv (phone_blur st)), (Hv st).
  destruct (to_finnish_normal _ (replace_all_but_all_kept (value (f_phone (doc st)))))
    as (Hk & Hp).
  split; [exact Hp|]. split; [exact Hk|]. split.
  - rewrite (replace_all_but_fixed _ Hk). now apply to_finnish_fixed.
  - intros ->. reflexivity.
Qed.

End PhoneTwice.

(** ** The autosave catches up *)

Section Autosave.

Context `{Platform}.

Lemma validator_draft_data (f : field_id) (d : dom) :
  draft_data (snd (validator f d)) = draft_data d.
Proof.
  rewrite validator_verdict. destruct (applies f d); [|reflexivity].
  destruct d, f; reflexivity.
Qed.

Lemma saveDraft_in_sync (st : page) : draft_in_sync (saveDraft st).
Proof.
  unfold draft_in_sync. rewrite saveDraft_stores. destruct st; reflexivity.
Qed.

Lemma run_task_in_sync (fn : task) (st : page) :
  draft_in_sync st -> draft_in_sync (run_task fn st).
Proof.
  destruct fn as [f|]; cbn [run_task]; [|intros _; apply saveDraft_in_sync].
  unfold draft_in_sync. rewrite on_doc_doc, validator_draft_data.
  destruct st; intros Hs; exact Hs.
Qed.

Lemma run_timers_in_sync (fuel until : nat) (st : page) :
  draft_in_sync st -> draft_in_sync (snd (run_timers fuel until st)).
Proof.
  revert st. induction fuel as [|fuel IH]; intros st Hs; cbn [run_timers];
    [exact Hs|].
  destruct (next_due (timers st)) as [t|]; [|exact Hs].
  destruct (Nat.leb (due t) until); [|exact Hs].
  match goal with
  | |- context [run_timers fuel until ?s] =>
      specialize (IH s); destruct (run_timers fuel until s) as [ran st']
  end.
  cbn [snd] in *. apply IH. apply run_task_in_sync.
  destruct st; exact Hs.
Qed.

Lemma same_tid (l : list timer) (a b : timer) :
  NoDup (map tid l) -> In a l -> In b l -> tid a = tid b -> a = b.
Proof.
  induction l as [|x r IH]; [intros _ []|]. cbn [map].
  rewrite NoDup_cons, list_elem_of_In, in_map_iff. intros [Hx Hr] [->|Ha] [->|Hb] E.
  - reflexivity.
  - exfalso. apply Hx. exists b. split; [congruence|exact Hb].
  - exfalso. apply Hx. exists a. split; [congruence|exact Ha].
  - now apply IH.
Qed.

(** A pending [saveDraft] that is due fires, and nothing that fires
    after it changes a value: the store ends in step with the form. *)
Lemma run_timers_saves (fuel until : nat) (st : page) :
  length (timers st) <= fuel ->
  NoDup (map tid (timers st)) ->
  (exists t, In t (timers st) /\ job t = RunSaveDraft /\ due t <= until) ->
  draft_in_sync (snd (run_timers fuel until st)).
Proof.
  revert st. induction fuel as [|fuel IH]; intros st Hlen Hnd (t & Hin & Hj & Hdue).
  - destruct (timers st); [destruct Hin|cbn in Hlen; lia].
  - cbn [run_timers].
    destruct (next_due (timers st)) as [t0|] eqn:E.
    2:{ apply next_due_none in E. rewrite E in Hin. destruct Hin. }
    destruct (next_due_earliest _ _ E) as [Hin0 Hmin].
    specialize (Hmin t Hin).
    destruct (Nat.leb (due t0) until) eqn:Hd;
      [|apply Nat.leb_gt in Hd; lia].
    match goal with
    | |- context [run_timers fuel until ?s] =>
        pose proof (run_timers_in_sync fuel until s) as Hsync;
        specialize (IH s);
        assert (Hs : timers s = List.filter (other_timer (tid t0)) (timers st))
          by (rewrite (proj1 (run_task_sched _ _)); destruct st; reflexivity);
        destruct (run_timers fuel until s) as [ran st']
    end.
    cbn [snd] in *.
    destruct (job t0) eqn:Hj0.
    + apply IH.
      * rewrite Hs. pose proof (cleared_is_shorter t0 (timers st) Hin0). lia.
      * rewrite Hs. now apply cleared_NoDup.
      * exists t. rewrite Hs. split; [|split; assumption].
        apply List.filter_In. split; [exact Hin|].
        unfold other_timer. apply negb_true_iff, Nat.eqb_neq. intros Ht.
        apply (same_tid _ _ _ Hnd Hin Hin0) in Ht. subst t0. congruence.
    + apply Hsync. apply saveDraft_in_sync.
Qed.

Lemma elapse_saves (dt : nat) (st : page) :
  NoDup (map tid (timers st)) ->
  (exists t, In t (timers st) /\ job t = RunSaveDraft /\ due t <= clock st + dt) ->
  draft_in_sync (snd (elapse dt st)).
Proof.
  intros Hnd Hex. unfold elapse.
  pose proof (run_timers_saves (length (timers st)) (clock st + dt) st
                (Nat.le_refl _) Hnd Hex) as Hr.
  destruct (run_timers _ _ st) as [ran st']. cbn [snd] in *.
  destruct st'; exact Hr.
Qed.

Lemma debounced_pending (t : option nat) (st : page) :
  let st' := snd (debounced RunSaveDraft 300 t st) in
  clock st' = clock st
  /\ exists u, In u (timers st') /\ job u = RunSaveDraft /\ due u = clock st + 300.
Proof.
  cbv zeta. destruct st, t; (split; [reflexivity|]); eexists;
    (split; [apply in_app_iff; right; left; reflexivity|split; reflexivity]).
Qed.

Lemma form_input_pending (st : page) :
  clock (form_input st) = clock st
  /\ exists u, In u (timers (form_input st))
               /\ job u = RunSaveDraft /\ due u = clock st + 300.
Proof.
  unfold form_input.
  destruct (debounced_pending (save_on_input st) st) as (Hc & u & Hu).
  destruct (debounced RunSaveDraft 300 (save_on_input st) st) as [t st'].
  cbn [snd] in *. destruct st'; split; [exact Hc|exists u; exact Hu].
Qed.

Lemma form_change_pending (st : page) :
  clock (form_change st) = clock st
  /\ exists u, In u (timers (form_change st))
               /\ job u = RunSaveDraft /\ due u = clock st + 300.
Proof.
  unfold form_change.
  destruct (debounced_pending (save_on_change st) st) as (Hc & u & Hu).
  destruct (debounced RunSaveDraft 300 (save_on_change st) st) as [t st'].
  cbn [snd] in *. destruct st'; split; [exact Hc|exists u; exact Hu].
Qed.

Lemma autosaved_pending (e : event) (st : page) :
  autosaved e = true ->
  exists u, In u (timers (step e st))
            /\ job u = RunSaveDraft /\ due u = clock (step e st) + 300.
Proof.
  destruct e as [f v|f| | | |time|i o|dt]; try discriminate; intros _; cbn [step].
  - match goal with |- context [form_input ?s] =>
      destruct (form_input_pending s) as (Hc & u & Hin & Hj & Hd)
    end.
    exists u. rewrite Hc. repeat split; assumption.
  - destruct (form_change_pending st) as (Hc & u & Hin & Hj & Hd).
    exists u. rewrite Hc. repeat split; assumption.
  - match goal with |- context [form_change ?s] =>
      destruct (form_change_pending s) as (Hc & u & Hin & Hj & Hd)
    end.
    exists u. rewrite Hc. repeat split; assumption.
Qed.

Lemma sched_ok_NoDup (st : page) : sched_ok st -> NoDup (map tid (timers st)).
Proof. now intros (Hd & _). Qed.

(** The autosave catches up: when 300 ms or more pass after an edit,
    a commit or a click on the checkbox, with nothing else happening,
    the draft in the store is the JSON text of what the form holds. *)
Theorem autosave_catches_up (e : event) (dt : nat) (st : page) :
  reachable st ->
  autosaved e = true ->
  300 <= dt ->
  let st' := step (Elapsed dt) (step e st) in
  getItem STORAGE_KEY st' = Some (JSON_stringify (draft_data (doc st'))).
Proof.
  intros Hr He Hdt. cbv zeta. cbn [step].
  pose proof (step_sched_ok e st (reachable_sched_ok st Hr)) as Hok.
  destruct (autosaved_pending e st He) as (u & Hin & Hj & Hd).
  apply elapse_saves; [now apply sched_ok_NoDup|].
  exists u. repeat split; try assumption. lia.
Qed.

End Autosave.

(** ** The other keys of the store *)

Section OtherKeys.

Context `{Platform}.

Lemma run_task_other_keys (fn : task) (st : page) (k : string) :
  k <> STORAGE_KEY ->
  localStorage (run_task fn st) !! k = localStorage st !! k.
Proof.
  intros Hk. destruct fn as [f|]; cbn [run_task].
  - destruct st; reflexivity.
  - destruct st; unfold saveDraft, setItem; cbn.
    now apply lookup_insert_ne.
Qed.

Lemma run_timers_other_keys (fuel until : nat) (st : page) (k : string) :
  k <> STORAGE_KEY ->
  localStorage (snd (run_timers fuel until st)) !! k = localStorage st !! k.
Proof.
  intros Hk. revert st. induction fuel as [|fuel IH]; intros st; cbn [run_timers];
    [reflexivity|].
  destruct (next_due (timers st)) as [t|]; [|reflexivity].
  destruct (Nat.leb (due t) until); [|reflexivity].
  match goal with
  | |- context [run_timers fuel until ?s] =>
      specialize (IH s); destruct (run_timers fuel until s) as [ran st']
  end.
  cbn [snd] in *. rewrite IH, run_task_other_keys by exact Hk.
  destruct st; reflexivity.
Qed.

(** The script owns one key of the store.  Whatever happens on the
    page, an entry under any other key is left as it is: never written,
    never removed.  Loading the page writes nothing at all. *)
Theorem other_keys_untouched (k : string) :
  k <> STORAGE_KEY ->
  (forall store, localStorage (page_load store) = store)
  /\ (forall e st, localStorage (step e st) !! k = localStorage st !! k).
Proof.
  intros Hk. split.
  - intros store. unfold page_load.
    destruct (restoreDraft_frame (fresh_page store)) as (d' & c' & ->).
    reflexivity.
  - intros e st. destruct e as [f v|f| | | |time|i o|dt]; cbn [step].
    + rewrite form_input_localStorage.
      destruct f; rewrite ?field_input_localStorage; destruct st; reflexivity.
    + now rewrite form_change_localStorage.
    + rewrite form_change_localStorage.
      match goal with |- context [on_doc ?g ?s] =>
        replace (localStorage (on_doc g s)) with (localStorage s)
          by (destruct s; reflexivity) end.
      rewrite form_input_localStorage. destruct st; reflexivity.
    + now rewrite phone_blur_localStorage.
    + destruct st; unfold clearBtn_click, removeItem; cbn.
      now apply lookup_delete_ne.
    + now rewrite form_submit_localStorage.
    + destruct (awaiting st !! i); [|reflexivity].
      rewrite submit_settled_localStorage. destruct st; reflexivity.
    + unfold elapse.
      pose proof (run_timers_other_keys (length (timers st)) (clock st + dt) st k Hk)
        as Hr.
      destruct (run_timers _ _ st) as [ran st']. cbn [snd] in *.
      destruct st'; exact Hr.
Qed.

End OtherKeys.

(** ** Live validation and the rules *)

Section Live.

Context `{Platform}.

Lemma lookahead_single_line (cls : ascii -> bool) (s : string) :
  single_line s = true -> lookahead cls s = some_char cls s.
Proof.
  unfold single_line, some_char. induction s as [|c r IH]; [reflexivity|].
  cbn [list_ascii_of_string forallb existsb lookahead].
  rewrite andb_true_iff. intros [Hc Hr]. rewrite Hc, IH by exact Hr.
  reflexivity.
Qed.

Lemma password_pattern_test_within (s : string) :
  password_pattern_test s = true ->
  some_char is_upper s && some_char is_lower s && some_char is_digit s = true.
Proof.
  assert (Hl : forall cls t, lookahead cls t = true -> some_char cls t = true).
  { intros cls t. unfold some_char. induction t as [|c r IH]; [discriminate|].
    cbn [lookahead list_ascii_of_string existsb].
    destruct (cls c); [reflexivity|]. cbn [orb].
    rewrite andb_true_iff. intros [_ Hr]. now apply IH. }
  induction s as [|c r IH]; [discriminate|].
  cbn [password_pattern_test]. rewrite orb_true_iff.
  intros [Hnow|Hlater].
  - rewrite !andb_true_iff in Hnow. destruct Hnow as [[Hu Hlo] Hd].
    now rewrite (Hl _ _ Hu), (Hl _ _ Hlo), (Hl _ _ Hd).
  - specialize (IH Hlater). rewrite !andb_true_iff in IH.
    destruct IH as [[Hu Hlo] Hd]. unfold some_char in *.
    cbn [list_ascii_of_string existsb]. rewrite Hu, Hlo, Hd.
    now rewrite !orb_true_r.
Qed.

(** The password pattern: three lookaheads at one position.  A value
    that passes has an upper-case letter, a lower-case letter and a
    digit; the order does not matter.  A value of one line that has the
    three passes. *)
Theorem password_pattern_is_three_classes (s : string) :
  (password_pattern_test s = true ->
   some_char is_upper s && some_char is_lower s && some_char is_digit s = true)
  /\ (single_line s = true ->
      password_pattern_test s
      = some_char is_upper s && some_char is_lower s && some_char is_digit s).
Proof.
  split; [apply password_pattern_test_within|].
  intros Hs.
  destruct (some_char is_upper s && some_char is_lower s && some_char is_digit s)
    eqn:E.
  - destruct s as [|c r]; [discriminate|].
    cbn [password_pattern_test].
    rewrite !lookahead_single_line by exact Hs. now rewrite E.
  - destruct (password_pattern_test s) eqn:Ep; [|reflexivity].
    apply password_pattern_test_within in Ep. congruence.
Qed.

Lemma on_doc_fixed (g : dom -> dom) (st : page) :
  g (doc st) = doc st -> on_doc g st = st.
Proof. destruct st. unfold on_doc. cbn. now intros ->. Qed.

(** What a validator answers is what it shows: when it answers true the
    field's error slot is empty and the field is marked valid; when it
    answers false the field is marked invalid and the slot holds the
    field's validation message. *)
Theorem validator_shows_its_answer (f : field_id) (d : dom) :
  applies f d = true ->
  let d' := snd (validator f d) in
  aria_invalid (field f d') = Some (String_of_bool (negb (fst (validator f d))))
  /\ errorEl f d' = validationMessage f (field f d')
  /\ (fst (validator f d) = true -> errorEl f d' = "").
Proof.
  intros Ha. cbv zeta. rewrite validator_verdict, Ha. cbn [fst snd].
  assert (Hf : f <> Hp) by (intros ->; discriminate).
  rewrite verdict_field, verdict_errorEl by assumption.
  rewrite !decide_True by reflexivity.
  split; [apply settle_marker|]. split; [reflexivity|].
  unfold checkValidity, validationMessage.
  destruct (customError _), (markupInvalid f _);
    cbn [orb negb]; try discriminate; reflexivity.
Qed.

Lemma user_input_doc (f : field_id) (v : string) (st : page) :
  f <> Hp ->
  doc (step (UserInput f v) st)
  = buildSummary (set_field f (typed_value v (field f (doc st))) (doc st)).
Proof.
  intros Hf. cbn [step]. rewrite form_input_doc.
  destruct f; try congruence; now rewrite field_input_doc, on_doc_doc.
Qed.

(** Live validation is immediate: the input listener rebuilds the
    summary at once, and the summary runs the validators.  Right after
    an 'input' event every field's error state is current, and the
    validation that the listener scheduled changes nothing when it
    fires on the page as the event left it. *)
Theorem live_validation_is_immediate (f : field_id) (v : string) (st : page) :
  f <> Hp ->
  let st' := step (UserInput f v) st in
  value (field f (doc st')) = v
  /\ (forall g, In g validated -> applies g (doc st') = true ->
        error_state_current g (doc st'))
  /\ run_task (RunValidator f) st' = st'.
Proof.
  intros Hf. cbv zeta. split; [|split].
  - rewrite (user_input_doc f v st Hf), buildSummary_values.
    destruct (doc st), f; reflexivity.
  - intros g _. rewrite (user_input_doc f v st Hf). apply buildSummary_current.
  - unfold run_task. apply on_doc_fixed.
    rewrite (user_input_doc f v st Hf).
    set (d := buildSummary _).
    destruct (applies f d) eqn:Ha.
    + exact (proj1 (buildSummary_current f _ Ha)).
    + rewrite validator_verdict, Ha. reflexivity.
Qed.

End Live.

(** * The properties at work on the concrete platform *)

Section Instances.

#[local] Existing Instance Demo.demo_platform.

(** C1, as stated, fails. After a reload the name is empty and the
    e-mail is not an address.  The validity check stops at the name: the
    e-mail's validator has not run, its slot is still empty and its
    marker absent, while its value calls for a message. *)
Lemma validity_check_stops_at_first_failure :
  let d1 := snd (validity_check Demo.reloaded) in
  fst (validity_check Demo.reloaded) = false
  /\ In Email validated
  /\ e_email d1 = ""
  /\ aria_invalid (f_email d1) = None
  /\ e_email (snd (validateEmail d1)) = "Enter a valid email address."
  /\ aria_invalid (f_email (snd (validateEmail d1))) = Some "true"
  /\ ~ error_state_current Email d1.
Proof.
  cbv zeta. repeat split; try reflexivity.
  - cbn; tauto.
  - intros (Hrun & _). vm_compute in Hrun. discriminate Hrun.
Qed.

(** C4 at work: the filled form is saved, the page is reloaded, and
    the draft is restored into the fresh page. *)
Lemma draft_round_trip_reload :
  let st := Demo.filled in
  let into := fresh_page (localStorage (saveDraft st)) in
  let restored := doc (snd (restoreDraft into)) in
  json_round_trips (draft_data (doc st))
  /\ getItem STORAGE_KEY into = getItem STORAGE_KEY (saveDraft st)
  /\ fst (restoreDraft into) = Ok tt
  /\ value (f_name restored) = "Ada Lovelace"
  /\ value (f_email restored) = "ada@example.org"
  /\ value (f_phone restored) = "040 123 4567"
  /\ value (f_password restored) = "Secret123"
  /\ value (f_company restored) = "Analytical Engines"
  /\ companyToggle_checked restored = true
  /\ companySection_hidden restored = false.
Proof.
  cbv zeta.
  assert (Hrt : json_round_trips (draft_data (doc Demo.filled))).
  { split; [vm_compute; discriminate|vm_compute; reflexivity]. }
  assert (Hinto : getItem STORAGE_KEY (fresh_page (localStorage (saveDraft Demo.filled)))
                  = getItem STORAGE_KEY (saveDraft Demo.filled)) by reflexivity.
  split; [exact Hrt|]. split; [exact Hinto|].
  exact (draft_round_trip Demo.filled _ Hrt Hinto).
Defined.

(** C5, as stated, fails. The stored blob is the empty string, which
    [JSON.parse] refuses; [restoreDraft] returns before parsing and
    nothing is written to the console. *)
Lemma empty_blob_is_not_reported :
  let st := fresh_page {[ STORAGE_KEY := "" ]} in
  getItem STORAGE_KEY st = Some ""
  /\ JSON_parse "" = None
  /\ restoreDraft st = (Ok tt, st)
  /\ console (snd (restoreDraft st)) = [].
Proof. cbv zeta. repeat split. Qed.

(** C5 at work: a draft cut in the middle. *)
Lemma restoreDraft_truncated_blob :
  let raw := Demo.truncated_blob in
  let st := fresh_page {[ STORAGE_KEY := raw ]} in
  let st' := snd (restoreDraft st) in
  getItem STORAGE_KEY st = Some raw
  /\ JSON_parse raw = None
  /\ fst (restoreDraft st) = Ok tt
  /\ doc st' = markup
  /\ alerts st' = []
  /\ localStorage st' = localStorage st
  /\ console st' = [ConsoleError "Restore Error:" (LExn SyntaxError)].
Proof.
  cbv zeta.
  assert (Hraw : getItem STORAGE_KEY (fresh_page {[ STORAGE_KEY := Demo.truncated_blob ]})
                 = Some Demo.truncated_blob) by reflexivity.
  assert (Hparse : JSON_parse Demo.truncated_blob = None) by reflexivity.
  split; [exact Hraw|]. split; [exact Hparse|].
  exact (restoreDraft_malformed _ _ Hraw Hparse).
Defined.

(** C6, as stated, fails. A [+] inside the number is kept by the
    script; the specification's stripping removes it. *)
Lemma phone_blur_keeps_inner_plus :
  let st := step (UserInput Phone "12+34") Demo.first_visit in
  value (f_phone (doc (phone_blur st))) = "+35812+34"
  /\ normalise_spec (value (f_phone (doc st))) = "+3581234"
  /\ value (f_phone (doc (phone_blur st)))
     <> normalise_spec (value (f_phone (doc st))).
Proof. cbv zeta. repeat split. vm_compute. discriminate. Qed.

(** The scenarios of the specification. *)
Example phone_blur_leading_zero :
  value (f_phone (doc (phone_blur (step (UserInput Phone "0401234567")
                                     Demo.first_visit))))
  = "+358401234567".
Proof. reflexivity. Qed.

Example phone_blur_canonical :
  value (f_phone (doc (phone_blur (step (UserInput Phone "+358401234567")
                                     Demo.first_visit))))
  = "+358401234567".
Proof. reflexivity. Qed.

Example phone_blur_agrees_with_spec :
  plus_only_leads "+358 (40) 123-4567" = true
  /\ normalise_amended "+358 (40) 123-4567" = normalise_spec "+358 (40) 123-4567".
Proof. split; reflexivity. Qed.

(** C8 at work: the form is submitted as it loads, empty. *)
Lemma submit_empty_form_focuses_name :
  let st := Demo.first_visit in
  let st' := form_submit "2024-05-01T10:00:00.000Z" st in
  (forall f, In f validated -> In f dom_order)
  /\ fst (validateName (doc st)) && fst (validateEmail (doc st))
     && fst (validatePassword (doc st)) && fst (validatePhone (doc st))
     && fst (validateCompany (doc st)) = false
  /\ focused st' = Some Name
  /\ fetched st' = []
  /\ exists f before after,
       dom_order = (before ++ f :: after)%list
       /\ marked_invalid (doc st') f = true
       /\ (forall g, In g before -> marked_invalid (doc st') g = false)
       /\ st' = focus f (on_doc buildSummary st)
       /\ fetched st' = fetched st
       /\ awaiting st' = awaiting st
       /\ alerts st' = alerts st.
Proof.
  cbv zeta.
  assert (Hform : forall f, In f validated -> In f dom_order).
  { intros f Hf. cbn in *. tauto. }
  assert (Hc : fst (validateName (doc Demo.first_visit))
               && fst (validateEmail (doc Demo.first_visit))
               && fst (validatePassword (doc Demo.first_visit))
               && fst (validatePhone (doc Demo.first_visit))
               && fst (validateCompany (doc Demo.first_visit)) = false)
    by reflexivity.
  split; [exact Hform|]. split; [exact Hc|].
  split; [reflexivity|]. split; [reflexivity|].
  exact (submit_invalid_focuses_first "2024-05-01T10:00:00.000Z"
           Demo.first_visit Hform Hc).
Defined.

(** C9, as stated, fails. The server answers with status 500 and a JSON
    body: a failed response, which the listener reports as a success. *)
Lemma error_status_is_reported_as_success :
  let o := Resolved {| status := 500; body_text := "{}" |} in
  let st' := step (Settled 0 o) Demo.submitted in
  length (awaiting Demo.submitted) = 1
  /\ request_failed o
  /\ alerts st' = ["Submitted successfully. Demo ID: undefined"]
  /\ ~ In RETRY_NOTICE (alerts st').
Proof.
  cbv zeta. split; [reflexivity|]. split; [left; cbn; lia|].
  split; [reflexivity|]. vm_compute. intros [E|[]]. discriminate E.
Qed.

(** The scenario of the specification: the server answers [{id: 101}]. *)
Example submit_success_shows_id :
  alerts (step (Settled 0 (Resolved {| status := 201;
                                       body_text := Demo.stringify (JObj [("id", JNum 101%Z)]) |}))
            Demo.submitted)
  = ["Submitted successfully. Demo ID: 101"].
Proof. reflexivity. Qed.

(** An [id] that cannot be shown: the body is JSON, its [id] an object
    with a member [toString]; the conversion throws inside the [try]
    block and the user gets the retry notice. *)
Example unprintable_id_is_reported_as_failure :
  let body := Demo.stringify (JObj [("id", JObj [("toString", JNum 1%Z)])]) in
  let st' := step (Settled 0 (Resolved {| status := 201; body_text := body |}))
               Demo.submitted in
  alerts st' = [RETRY_NOTICE]
  /\ console st'
     = (console Demo.submitted
        ++ [ConsoleError "Submission Error:" (LExn TypeError)])%list.
Proof. cbv zeta. split; reflexivity. Qed.

(** The company invariant at work: the box is checked and the form
    cleared; the section is hidden and the slot empty. *)
Lemma hidden_company_after_clear :
  let st := run [UserToggle; UserInput Company ""; ClearClick] Demo.first_visit in
  e_company markup = ""
  /\ reachable st
  /\ companySection_hidden (doc st) = true
  /\ e_company (doc st) = "".
Proof.
  cbv zeta.
  assert (Hm : e_company markup = "") by reflexivity.
  assert (Hr : reachable (run [UserToggle; UserInput Company ""; ClearClick]
                            Demo.first_visit)).
  { unfold run. cbn [fold_left]. repeat apply reachable_step. apply reachable_load. }
  assert (Hh : companySection_hidden
                 (doc (run [UserToggle; UserInput Company ""; ClearClick]
                         Demo.first_visit)) = true) by reflexivity.
  split; [exact Hm|]. split; [exact Hr|]. split; [exact Hh|].
  exact (hidden_company_shows_no_error _ Hm Hr Hh).
Defined.

(** The bot trap at work: the filled form with the hidden field filled
    in as well. *)
Lemma bot_fills_the_trap :
  let st := step (UserInput Hp "x") Demo.filled in
  fst (validateName (doc st)) && fst (validateEmail (doc st))
  && fst (validatePassword (doc st)) && fst (validatePhone (doc st))
  && fst (validateCompany (doc st)) = true
  /\ value (f_hp (doc st)) <> ""
  /\ form_submit "2024-05-01T10:00:00.000Z" st
     = alert "Submission blocked due to bot detection." (on_doc buildSummary st)
  /\ fetched (form_submit "2024-05-01T10:00:00.000Z" st) = fetched st.
Proof.
  cbv zeta.
  assert (Hc : fst (validateName (doc (step (UserInput Hp "x") Demo.filled)))
               && fst (validateEmail (doc (step (UserInput Hp "x") Demo.filled)))
               && fst (validatePassword (doc (step (UserInput Hp "x") Demo.filled)))
               && fst (validatePhone (doc (step (UserInput Hp "x") Demo.filled)))
               && fst (validateCompany (doc (step (UserInput Hp "x") Demo.filled)))
               = true) by reflexivity.
  assert (Hhp : value (f_hp (doc (step (UserInput Hp "x") Demo.filled))) <> "")
    by (vm_compute; discriminate).
  split; [exact Hc|]. split; [exact Hhp|].
  exact (bot_trap_blocks_submission "2024-05-01T10:00:00.000Z" _ Hc Hhp).
Defined.

(** The filled form is sent. *)
Lemma filled_form_is_sent :
  let st := Demo.filled in
  let st' := form_submit "2024-05-01T10:00:00.000Z" st in
  fst (validateName (doc st)) && fst (validateEmail (doc st))
  && fst (validatePassword (doc st)) && fst (validatePhone (doc st))
  && fst (validateCompany (doc st)) = true
  /\ value (f_hp (doc st)) = ""
  /\ length (fetched st') = 1
  /\ map url (fetched st') = [ENDPOINT]
  /\ (let d := doc st in
      let payload : jsval number :=
        JObj [("name", JStr (value (f_name d)));
              ("email", JStr (value (f_email d)));
              ("phone", JStr (value (f_phone d)));
              ("company", JStr (if companyToggle_checked d
                                then value (f_company d) else ""));
              ("time", JStr "2024-05-01T10:00:00.000Z")] in
      fetched st'
      = (fetched st
         ++ [{| url := ENDPOINT; method := "POST";
                headers := [("Content-Type", "application/json")];
                body := JSON_stringify payload |}])%list
      /\ awaiting st' = (awaiting st ++ [payload])%list
      /\ alerts st' = alerts st).
Proof.
  cbv zeta.
  assert (Hc : fst (validateName (doc Demo.filled))
               && fst (validateEmail (doc Demo.filled))
               && fst (validatePassword (doc Demo.filled))
               && fst (validatePhone (doc Demo.filled))
               && fst (validateCompany (doc Demo.filled)) = true) by reflexivity.
  assert (Hhp : value (f_hp (doc Demo.filled)) = "") by reflexivity.
  split; [exact Hc|]. split; [exact Hhp|].
  split; [reflexivity|]. split; [reflexivity|].
  exact (valid_form_is_sent "2024-05-01T10:00:00.000Z" Demo.filled Hc Hhp).
Defined.

(** Two keystrokes 10 ms apart: one [saveDraft] is pending. *)
Lemma autosave_after_two_keystrokes :
  let st := run [UserInput Name "A"; Elapsed 10; UserInput Name "Ad"]
              Demo.first_visit in
  reachable st
  /\ map job (timers st) = [RunValidator Name; RunValidator Name; RunSaveDraft]
  /\ NoDup (map tid (timers st))
  /\ (forall t, In t (timers st) -> tid t < next_timer st)
  /\ (forall t, In t (timers st) -> job t = RunSaveDraft ->
        Some (tid t) = save_on_input st \/ Some (tid t) = save_on_change st).
Proof.
  cbv zeta.
  assert (Hr : reachable (run [UserInput Name "A"; Elapsed 10; UserInput Name "Ad"]
                            Demo.first_visit)).
  { unfold run. cbn [fold_left]. repeat apply reachable_step. apply reachable_load. }
  split; [exact Hr|]. split; [reflexivity|].
  exact (autosave_is_debounced _ Hr).
Defined.

(** The autosave at work: a keystroke, then 300 ms of quiet. *)
Lemma autosave_after_a_keystroke :
  let st := Demo.filled in
  let st' := step (Elapsed 300) (step (UserInput Name "Ada") st) in
  reachable st
  /\ autosaved (UserInput Name "Ada") = true
  /\ 300 <= 300
  /\ getItem STORAGE_KEY st' = Some (JSON_stringify (draft_data (doc st'))).
Proof.
  cbv zeta.
  assert (Hr : reachable Demo.filled).
  { unfold Demo.filled, run. cbn [fold_left]. repeat apply reachable_step.
    apply reachable_load. }
  split; [exact Hr|]. split; [reflexivity|]. split; [lia|].
  exact (autosave_catches_up (UserInput Name "Ada") 300 Demo.filled Hr eq_refl
           (Nat.le_refl 300)).
Defined.

(** Another application's entry survives a click on Clear. *)
Lemma clear_keeps_other_entries :
  let st := page_load {[ "theme" := "dark" ]} in
  "theme" <> STORAGE_KEY
  /\ localStorage (step ClearClick st) !! "theme" = Some "dark"
  /\ (forall store, localStorage (page_load store) = store)
  /\ (forall e st, localStorage (step e st) !! "theme" = localStorage st !! "theme").
Proof.
  cbv zeta.
  assert (Hk : "theme" <> STORAGE_KEY) by discriminate.
  split; [exact Hk|]. split; [reflexivity|].
  exact (other_keys_untouched "theme" Hk).
Defined.

(** A password too weak: the validator answers false and says why. *)
Lemma weak_password_is_shown :
  let d := doc (step (UserInput Password "secret123") Demo.first_visit) in
  let d' := snd (validator Password d) in
  applies Password d = true
  /\ fst (validator Password d) = false
  /\ errorEl Password d' = "Add upper case, lower case, and a number."
  /\ aria_invalid (field Password d')
     = Some (String_of_bool (negb (fst (validator Password d))))
  /\ errorEl Password d' = validationMessage Password (field Password d')
  /\ (fst (validator Password d) = true -> errorEl Password d' = "").
Proof.
  cbv zeta. split; [reflexivity|]. split; [reflexivity|]. split; [reflexivity|].
  exact (validator_shows_its_answer Password _ eq_refl).
Defined.

(** Live validation at work: one keystroke in the e-mail field. *)
Lemma keystroke_is_validated_at_once :
  let st' := step (UserInput Email "ada") Demo.first_visit in
  Email <> Hp
  /\ e_email (doc st') = "Enter a valid email address."
  /\ value (field Email (doc st')) = "ada"
  /\ (forall g, In g validated -> applies g (doc st') = true ->
        error_state_current g (doc st'))
  /\ run_task (RunValidator Email) st' = st'.
Proof.
  cbv zeta.
  assert (Hf : Email <> Hp) by discriminate.
  split; [exact Hf|]. split; [reflexivity|].
  exact (live_validation_is_immediate Email "ada" Demo.first_visit Hf).
Defined.

(** After Clear the required fields show their messages again, and an
    autosave that was pending brings the draft back. *)
Example clear_then_pending_autosave :
  let st := step ClearClick (step (UserInput Name "Ada") Demo.first_visit) in
  e_name (doc st) = "Name is required."
  /\ getItem STORAGE_KEY st = None
  /\ is_Some (getItem STORAGE_KEY (step (Elapsed 300) st)).
Proof. cbv zeta. split; [reflexivity|]. split; [reflexivity|]. vm_compute. eauto. Qed.

(** An empty phone field gets the country code on blur. *)
Example phone_blur_empty_field :
  value (f_phone (doc (phone_blur Demo.first_visit))) = "+358".
Proof. reflexivity. Qed.

End Instances.
